(** * kaleidoscope: the orchestration interface (interface.py)

    A shallow embedding of [kaleidoscope.interface.Interface] and the
    properties of its bring-up sequence, its shell wrapper, its progress
    sampler and its paginated listing.

    Python values are modelled as follows.
    - [str] is [string]; each [ascii] is one code point.
    - [bytes] written by a child process are taken to be ASCII text, on which
      [bytes.decode()] changes nothing, so they are [string] as well.
    - [int] is [Z]; [None]-able values are [option].
    - Everything outside the interpreter (the shell, the object store, the
      process environment, the manifest writers, the clock) is an abstract
      world of type [W] reached through the class [External]; every call to
      it is recorded, with its answer, in a log of [Event]s.
    - A method is a function [W -> Outcome A] giving its result or the
      exception it raises, the world it leaves and the events it issued. *)

From Stdlib Require Import String Ascii List ZArith Bool Lia DecimalString Decimal.
Import ListNotations.
Open Scope list_scope.
Open Scope string_scope.

Set Implicit Arguments.

(** ** Python string operations *)

Module Py.

(** The characters singled out by the code's literals. *)
Definition CR : string := String (ascii_of_nat 13) "".
Definition LF : string := String (ascii_of_nat 10) "".
Definition DQ : string := String (ascii_of_nat 34) "".
Definition BACKSLASH : string := String (ascii_of_nat 92) "".

(** [str.isspace] on one code point below 256. *)
Definition isspace (c : ascii) : bool :=
  let n := nat_of_ascii c in
  ((9 <=? n) && (n <=? 13) || (28 <=? n) && (n <=? 32)
   || (n =? 133) || (n =? 160))%nat.

Definition is_empty (s : string) : bool :=
  match s with EmptyString => true | String _ _ => false end.

(** [len(s)] *)
Definition len (s : string) : Z := Z.of_nat (String.length s).

(** Truth value of a [str] or [bytes] object. *)
Definition truthy (s : string) : bool := negb (is_empty s).

Fixpoint lstrip (s : string) : string :=
  match s with
  | EmptyString => EmptyString
  | String c s' => if isspace c then lstrip s' else s
  end.

Fixpoint rstrip (s : string) : string :=
  match s with
  | EmptyString => EmptyString
  | String c s' =>
      let r := rstrip s' in
      if isspace c && is_empty r then EmptyString else String c r
  end.

(** [s.strip()] *)
Definition strip (s : string) : string := rstrip (lstrip s).

(** [needle in hay] *)
Fixpoint contains (needle hay : string) : bool :=
  String.prefix needle hay ||
  match hay with
  | EmptyString => false
  | String _ hay' => contains needle hay'
  end.

Definition snoc (s : string) (c : ascii) : string := s ++ String c "".

(** [s.split()]: split at runs of whitespace, no empty fields. *)
Fixpoint split_ws_from (word s : string) : list string :=
  match s with
  | EmptyString => if is_empty word then [] else [word]
  | String c s' =>
      if isspace c
      then (if is_empty word then split_ws_from "" s'
            else word :: split_ws_from "" s')
      else split_ws_from (snoc word c) s'
  end.

Definition split_ws (s : string) : list string := split_ws_from "" s.

(** [s.split(sep)] for a separator of one character. *)
Fixpoint split_from (sep : ascii) (word s : string) : list string :=
  match s with
  | EmptyString => [word]
  | String c s' =>
      if Ascii.eqb c sep then word :: split_from sep "" s'
      else split_from sep (snoc word c) s'
  end.

Definition split (sep : ascii) (s : string) : list string :=
  split_from sep "" s.

(** Line boundaries of [str.splitlines] below code point 256. *)
Definition is_linebreak (c : ascii) : bool :=
  let n := nat_of_ascii c in
  ((10 <=? n) && (n <=? 13) || (28 <=? n) && (n <=? 30) || (n =? 133))%nat.

(** [s.splitlines()]: a CR LF pair is one boundary, and a final boundary
    opens no further line. *)
Fixpoint splitlines_from (line : string) (after_cr : bool) (s : string)
  : list string :=
  match s with
  | EmptyString => if is_empty line then [] else [line]
  | String c s' =>
      if after_cr && Ascii.eqb c (ascii_of_nat 10)
      then splitlines_from line false s'
      else if is_linebreak c
      then line :: splitlines_from "" (Ascii.eqb c (ascii_of_nat 13)) s'
      else splitlines_from (snoc line c) false s'
  end.

Definition splitlines (s : string) : list string :=
  splitlines_from "" false s.

Definition digit_value (c : ascii) : option Z :=
  let n := nat_of_ascii c in
  if ((48 <=? n) && (n <=? 57))%nat then Some (Z.of_nat n - 48)%Z else None.

(** Digits of an [int] literal: single underscores may separate digits. *)
Fixpoint digits_from (acc : Z) (need_digit : bool) (s : string) : option Z :=
  match s with
  | EmptyString => if need_digit then None else Some acc
  | String c s' =>
      match digit_value c with
      | Some d => digits_from (10 * acc + d)%Z false s'
      | None =>
          if Ascii.eqb c "_" && negb need_digit
          then digits_from acc true s'
          else None
      end
  end.

(** The padding [int] accepts around a literal: the ASCII whitespace of C
    and, of the code points from 128 to 255, the two that are spaces.  The
    separators 28 to 31, blank to [str.strip], are not among it. *)
Definition int_space (c : ascii) : bool :=
  let n := nat_of_ascii c in
  ((9 <=? n) && (n <=? 13) || (n =? 32) || (n =? 133) || (n =? 160))%nat.

Fixpoint int_lstrip (s : string) : string :=
  match s with
  | EmptyString => EmptyString
  | String c s' => if int_space c then int_lstrip s' else s
  end.

Fixpoint int_rstrip (s : string) : string :=
  match s with
  | EmptyString => EmptyString
  | String c s' =>
      let r := int_rstrip s' in
      if int_space c && is_empty r then EmptyString else String c r
  end.

(** [int(s)] in base 10; [None] stands for [ValueError]. *)
Definition int (s : string) : option Z :=
  match int_rstrip (int_lstrip s) with
  | String "-" ds => option_map Z.opp (digits_from 0 true ds)
  | String "+" ds => digits_from 0 true ds
  | ds => digits_from 0 true ds
  end.

(** [str(n)] for an [int]. *)
Definition str_of_int (n : Z) : string := NilZero.string_of_int (Z.to_int n).

End Py.

(** ** Values exchanged with the outside world *)

(** What a finished child process has produced. *)
Record ProcOut := {
  stdout : string;
  stderr : string;
  returncode : Z
}.

(** An entry of a listing page ([response["Contents"]]). *)
Record ObjectPointer := {
  Key : string;
  ETag : string
}.

(** Keyword arguments of [list_objects_v2], a dict the loop updates in place. *)
Record Kwargs := {
  Bucket : string;
  ContinuationToken : option string
}.

(** A listing response: either key may be absent from the dict. *)
Record Response := {
  Contents : option (list ObjectPointer);
  NextContinuationToken : option string
}.

(** Calls into [kaleidoscope.yaml_creation], the manifest writers. *)
Inductive YamlCall :=
| create_secret_yaml
| create_secret_store_yaml
| create_redis_service_yaml
| create_redis_master_yaml
| create_queue_maker_yaml (bucket : string)
| create_poll_yaml
| create_job_yaml (origin_s3_bucket destination_s3_bucket : string)
    (num_workers : Z).

Inductive Event :=
| EvWrite (text : string)                         (* sys.stdout.write, print *)
| EvPopen (command : string) (out : ProcOut)      (* subprocess.Popen, shell=True *)
| EvRun (argv : list string)                      (* subprocess.run *)
| EvBuckets (names : list string)                 (* s3.buckets.all() *)
| EvEnviron (key : string) (value : option string) (* os.environ[key] *)
| EvYaml (call : YamlCall)
| EvListObjects (kwargs : Kwargs) (response : Response)
| EvPoolMap (iterable : option (list ObjectPointer)) (* executor.map *)
| EvSleep (delay : Z).

(** Exceptions the code raises or lets through.  [EnvironmentError] is the
    Python 3 alias of [OSError]; the two constructors keep the two raise
    sites apart.  [LoopBound] is no Python exception: it marks a run of the
    listing loop cut off by the model's iteration bound. *)
Inductive Exn :=
| AssertionError (msg : string)
| EnvironmentError (msg : string)
| OSError (error : string)
| ValueError (msg : string)
| KeyError (key : string)
| TypeError (msg : string)
| LoopBound.

Inductive Result (A : Type) :=
| Ok (a : A)
| Raise (e : Exn).
Arguments Raise {A} e.

(** The capabilities of the outside world. *)
Class External (W : Type) := {
  os_environ : W -> string -> option string;
  (** run a shell command line to completion *)
  shell_exec : string -> W -> ProcOut * W;
  (** run an argument vector to completion, output not captured *)
  subprocess_run : list string -> W -> W;
  (** names of the buckets the store lists *)
  s3_buckets_all : W -> list string * W;
  s3_list_objects_v2 : Kwargs -> W -> Response * W;
  yaml_creation : YamlCall -> W -> W;
  time_sleep : Z -> W -> W
}.

(** ** The monad of methods *)

Section Methods.

Context {W : Type} {Ext : External W}.

Record Outcome (A : Type) := {
  res : Result A;
  world : W;
  log : list Event
}.

Definition M (A : Type) : Type := W -> Outcome A.

Definition ret {A} (a : A) : M A :=
  fun w => {| res := Ok a; world := w; log := [] |}.

Definition raise {A} (e : Exn) : M A :=
  fun w => {| res := Raise e; world := w; log := [] |}.

Definition bind {A B} (m : M A) (f : A -> M B) : M B :=
  fun w =>
    let o := m w in
    match res o with
    | Ok a =>
        let o' := f a (world o) in
        {| res := res o'; world := world o'; log := (log o ++ log o')%list |}
    | Raise e => {| res := Raise e; world := world o; log := log o |}
    end.

(** [try: m except KeyError: handler] *)
Definition except_KeyError {A} (m : M A) (handler : M A) : M A :=
  fun w =>
    let o := m w in
    match res o with
    | Raise (KeyError _) =>
        let o' := handler (world o) in
        {| res := res o'; world := world o'; log := (log o ++ log o')%list |}
    | _ => o
    end.

(** One call to the world: its answer, the world after it, its record. *)
Definition call {A} (f : W -> A * W) (ev : A -> Event) : M A :=
  fun w =>
    let r := f w in
    {| res := Ok (fst r); world := snd r; log := [ev (fst r)] |}.

Definition act (f : W -> W) (ev : Event) : M unit :=
  fun w => {| res := Ok tt; world := f w; log := [ev] |}.

End Methods.

Arguments Outcome W A : clear implicits.
Arguments M W A : clear implicits.

Declare Scope py_scope.
Delimit Scope py_scope with py.
Notation "x <- m ;; k" := (bind m (fun x => k))
  (at level 61, m at next level, right associativity) : py_scope.
Notation "m ;; k" := (bind m (fun _ => k))
  (at level 61, right associativity) : py_scope.
Open Scope py_scope.

(** ** The interface *)

Section Interface.

Context {W : Type} {Ext : External W}.

(** The attributes of an [Interface] object.  [verbose] stands for the choice
    of [_vprint]: [sys.stdout.write], or a function that does nothing. *)
Record Interface := {
  verbose : bool;
  cluster_name : string;
  kops_state_store_name : string;
  original_images_bucket : string;
  augmented_images_bucket : string
}.

(** The attribute assignments that open [__init__]. *)
Definition new_self (cluster_name_prefix : string) (verbose : bool)
  : Interface :=
  {| verbose := verbose;
     cluster_name := cluster_name_prefix ++ ".k8s.local";
     kops_state_store_name := cluster_name_prefix ++ "-kops-state-store";
     original_images_bucket :=
       cluster_name_prefix ++ "-original-images-bucket";
     augmented_images_bucket :=
       cluster_name_prefix ++ "-augmented-images-bucket" |}.

Definition stdout_write (text : string) : M W unit :=
  fun w => {| res := Ok tt; world := w; log := [EvWrite text] |}.

(** [print(text)] *)
Definition print (text : string) : M W unit :=
  stdout_write (text ++ Py.LF).

Definition _vprint (self : Interface) (text : string) : M W unit :=
  if verbose self then stdout_write text else ret tt.

(** [os.environ[key]] *)
Definition environ_getitem (key : string) : M W string :=
  fun w =>
    let v := os_environ w key in
    {| res := match v with Some s => Ok s | None => Raise (KeyError key) end;
       world := w;
       log := [EvEnviron key v] |}.

(** [subprocess.Popen(command, stdout=..., stderr=..., shell=True)] followed
    by [communicate()]: a stream comes back only if it was piped, and is
    [None] otherwise. *)
Definition Popen_communicate (command : string)
  (stdout_piped stderr_piped : bool)
  : M W (option string * option string) :=
  out <- call (shell_exec command) (EvPopen command) ;;
  ret (if stdout_piped then Some (stdout out) else None,
       if stderr_piped then Some (stderr out) else None).

(** Truth value of an optional [bytes] object. *)
Definition bytes_truthy (b : option string) : bool :=
  match b with
  | None => false
  | Some s => Py.truthy s
  end.

(** [output.decode()]; calling it on [None] is an [AttributeError], which
    cannot arise since the caller pipes [stdout].  The bytes are taken to
    be ASCII text, which decoding leaves as it is; on other bytes the call
    can raise [UnicodeDecodeError] or give other code points, and what is
    stated of all outputs is stated of ASCII outputs. *)
Definition bytes_decode (b : option string) : M W string :=
  match b with
  | Some s => ret s
  | None => raise (TypeError "'NoneType' object has no attribute 'decode'")
  end.

Definition _pass_command_to_shell (command : string) : M W string :=
  p <- Popen_communicate command true false ;;
  let (output, error) := p in
  if bytes_truthy error
  then raise (OSError (match error with Some e => e | None => "" end))
  else
    output <- bytes_decode output ;;
    ret (Py.strip output).

Definition _package_message_non_zero (self : Interface)
  (package args : string) : M W bool :=
  _vprint self (Py.CR ++ package ++ ": checking installation") ;;
  let command := package ++ args in
  output <- _pass_command_to_shell command ;;
  ret (negb (Py.len output =? 0)%Z).

Definition _bucket_exists (self : Interface) (bucket_name : string)
  : M W bool :=
  _vprint self (Py.CR ++ bucket_name ++ ": Checking existence") ;;
  names <- call s3_buckets_all EvBuckets ;;
  ret (existsb (String.eqb bucket_name) names).

Definition create_bucket_command (bucket_name : string) : string :=
  "aws s3api create-bucket --bucket " ++ bucket_name
  ++ " --region us-east-1".

(** [subprocess.run(argv)]: the result is not looked at.  The child
    inherits the console; what it prints there is no event of the log,
    which holds the writes of the interpreter only. *)
Definition subprocess_run_argv (argv : list string) : M W unit :=
  act (subprocess_run argv) (EvRun argv).

Definition _create_bucket (bucket_name : string) : M W unit :=
  let create := create_bucket_command bucket_name in
  subprocess_run_argv (Py.split_ws create).

Definition _create_cluster_state_store (self : Interface) : M W unit :=
  _vprint self
    (Py.CR ++ kops_state_store_name self ++ ": Not found - Creating") ;;
  _create_bucket (kops_state_store_name self) ;;
  let apply_versioning :=
    "aws s3api put-bucket-versioning --bucket "
    ++ kops_state_store_name self
    ++ " --versioning-configuration Status=Enabled" in
  subprocess_run_argv (Py.split_ws apply_versioning) ;;
  _vprint self
    (Py.CR ++ kops_state_store_name self ++ ": Should be created").

Definition create_image_buckets (self : Interface) : M W unit :=
  ex <- _bucket_exists self (original_images_bucket self) ;;
  (if negb ex then _create_bucket (original_images_bucket self)
   else ret tt) ;;
  ex <- _bucket_exists self (augmented_images_bucket self) ;;
  (if negb ex then _create_bucket (augmented_images_bucket self)
   else ret tt).

Definition _check_environmental_variables (self : Interface) : M W unit :=
  _vprint self (Py.CR ++ "Environment variables: confirming") ;;
  let message := "please run this command in Terminal and try again:" in
  v <- environ_getitem "KOPS_CLUSTER_NAME" ;;
  if negb (String.eqb v (cluster_name self))
  then
    raise (EnvironmentError
             (message ++ "'export KOPS_CLUSTER_NAME=" ++ Py.DQ
              ++ cluster_name self ++ Py.DQ ++ "' >> $HOME/.bash_profile"))
  else
    v <- environ_getitem "KOPS_STATE_STORE" ;;
    if negb (String.eqb v ("s3://" ++ kops_state_store_name self))
    then
      raise (EnvironmentError
               (message ++ "'export KOPS_STATE_STORE=" ++ Py.DQ ++ "s3://"
                ++ kops_state_store_name self ++ Py.DQ
                ++ "' >> $HOME/.bash_profile"))
    else
      _vprint self (Py.CR ++ "Environment variables: confirmed").

Definition ready_message (self : Interface) : string :=
  "Your cluster " ++ cluster_name self ++ " is ready".

Definition _cluster_ready (self : Interface) : M W bool :=
  let command := "kops validate cluster" in
  _vprint self (Py.CR ++ "$: " ++ command) ;;
  output <- _pass_command_to_shell command ;;
  let message := ready_message self in
  ret (Py.contains message output).

Definition validate_cluster (self : Interface) : M W bool :=
  _cluster_ready self.

Definition yaml (c : YamlCall) : M W unit :=
  act (yaml_creation c) (EvYaml c).

Definition _configure_base_cluster (self : Interface) : M W unit :=
  yaml create_secret_yaml ;;
  yaml create_secret_store_yaml ;;
  yaml create_redis_service_yaml ;;
  yaml create_redis_master_yaml ;;
  yaml (create_queue_maker_yaml (original_images_bucket self)) ;;
  yaml create_poll_yaml.

Definition _activate_secret (self : Interface) : M W unit :=
  _vprint self (Py.CR ++ "Planting Secret") ;;
  let command := "kubectl create -f secret.yaml" in
  _pass_command_to_shell command ;; ret tt.

Definition _activate_secret_store (self : Interface) : M W unit :=
  _vprint self (Py.CR ++ "Creating Secret") ;;
  let command := "kubectl create -f secret_store.yaml" in
  _pass_command_to_shell command ;; ret tt.

Definition _activate_redis_service (self : Interface) : M W unit :=
  _vprint self (Py.CR ++ "Creating Redis Service") ;;
  let command := "kubectl create -f redis_service.yaml" in
  _pass_command_to_shell command ;; ret tt.

Definition _activate_redis_master (self : Interface) : M W unit :=
  _vprint self (Py.CR ++ "Starting Redis Master") ;;
  let command := "kubectl create -f redis_master.yaml" in
  _pass_command_to_shell command ;; ret tt.

Definition _activate_queue_maker (self : Interface) : M W unit :=
  _vprint self (Py.CR ++ "Starting Queue Maker") ;;
  let command := "kubectl create -f queue_maker.yaml" in
  _pass_command_to_shell command ;; ret tt.

Definition _activate_poll (self : Interface) : M W unit :=
  _vprint self (Py.CR ++ "Starting Poll") ;;
  let command := "kubectl create -f poll.yaml" in
  _pass_command_to_shell command ;; ret tt.

Definition _activate_base_components (self : Interface) : M W unit :=
  _activate_secret self ;;
  _activate_secret_store self ;;
  _activate_redis_service self ;;
  _activate_redis_master self ;;
  _vprint self (Py.CR ++ "Ready to upload").

Definition __init__ (cluster_name_prefix : string) (verbose : bool)
  : M W Interface :=
  let self := new_self cluster_name_prefix verbose in
  found <- _package_message_non_zero self "kubectl" " -h" ;;
  if negb found
  then
    let install_command := "`brew update && brew install kops kubectl`" in
    raise (AssertionError
             ("cannot find kubectl. Install via homebrew with "
              ++ install_command))
  else
  found <- _package_message_non_zero self "aws" " help" ;;
  if negb found
  then
    let install_command := "`pip install awscli --upgrade --user`" in
    raise (AssertionError
             ("cannot find awscli. Install with " ++ install_command))
  else
  ex <- _bucket_exists self (kops_state_store_name self) ;;
  (if negb ex then _create_cluster_state_store self else ret tt) ;;
  create_image_buckets self ;;
  _check_environmental_variables self ;;
  ready <- _cluster_ready self ;;
  (if ready
   then
     _vprint self (Py.CR ++ "Cluster appears to be ready") ;;
     _configure_base_cluster self ;;
     _activate_base_components self
   else
     print (Py.CR ++ "Cluster not ready." ++ Py.LF
            ++ " If you have created a cluster, please wait longer try again."
            ++ " If you have not created a cluster, please do Cluster.create_cluster()"
            ++ Py.LF)) ;;
  ret self.

(** Truth value of an optional [str] argument. *)
Definition str_truthy (s : option string) : bool :=
  match s with
  | None => false
  | Some s => Py.truthy s
  end.

Definition format_arg (s : option string) : string :=
  match s with
  | None => "None"
  | Some s => s
  end.

Definition upload_images (self : Interface)
  (local_images_directory s3_origin : option string) : M W unit :=
  _vprint self (Py.CR ++ "Uploading ...") ;;
  command <-
    (if str_truthy s3_origin
     then ret ("aws s3 cp s3://" ++ format_arg s3_origin ++ " s3://"
               ++ original_images_bucket self ++ " --recursive --quiet")
     else if str_truthy local_images_directory
     then ret ("aws s3 cp " ++ format_arg local_images_directory ++ " s3://"
               ++ original_images_bucket self ++ " --recursive --quiet")
     else raise (ValueError "at least one image origin must be not None")) ;;
  _pass_command_to_shell command ;;
  _vprint self (Py.CR ++ "Uploading ... Complete") ;;
  _activate_queue_maker self ;;
  _vprint self (Py.CR ++ "Ready to transform").

Definition transform (self : Interface) (num_workers : Z) : M W unit :=
  _activate_poll self ;;
  _vprint self (Py.CR ++ "Starting Workers") ;;
  yaml (create_job_yaml (original_images_bucket self)
          (augmented_images_bucket self) num_workers) ;;
  let command := "kubectl create -f job.yaml" in
  _pass_command_to_shell command ;; ret tt.

Definition _get_progress (self : Interface) : M W (option Z) :=
  let command := "kubectl logs poll" in
  output <- _pass_command_to_shell command ;;
  let output := Py.splitlines output in
  if (0 <? length output)%nat
  then
    let counts := Py.split ":" (last output "") in
    match Py.int (hd "" counts) with
    | Some progress => ret (Some progress)
    | None =>
        raise (ValueError ("invalid literal for int() with base 10: "
                           ++ hd "" counts))
    end
  else ret None.

(** [next(spinner)] for the cycle over the four spinner characters, after
    [position] earlier calls. *)
Definition spinner_next (position : nat) : string :=
  nth (position mod 4) ["-"; "/"; "|"; Py.BACKSLASH] "-".

Definition batch_size : Z := 100 * 2 ^ 6.

Definition remaining_line (main : Z) (position : nat) : string :=
  Py.CR ++ "~" ++ Py.str_of_int (batch_size * (main + 1))
  ++ " original images remaining  " ++ spinner_next position.

(** [time.sleep(delay)]: a delay below zero raises [ValueError] and no
    time passes. *)
Definition sleep (delay : Z) : M W unit :=
  if (delay <? 0)%Z
  then raise (ValueError "sleep length must be non-negative")
  else act (time_sleep delay) (EvSleep delay).

(** The body of the [for] loop of [progress], run [ticks] times; [position]
    counts the calls made to [next(spinner)].  [if main:] holds for an
    [int] other than 0 and fails for 0 and for [None]. *)
Fixpoint progress_loop (self : Interface) (delay : Z) (position : nat)
  (ticks : nat) : M W unit :=
  match ticks with
  | O => ret tt
  | S ticks' =>
      main <- _get_progress self ;;
      position' <-
        match main with
        | Some main =>
            if negb (main =? 0)%Z
            then stdout_write (remaining_line main position) ;;
                 ret (S position)
            else ret position
        | None => ret position
        end ;;
      sleep delay ;;
      progress_loop self delay position' ticks'
  end.

(** [range(total)] is empty for a negative [total]. *)
Definition progress (self : Interface) (delay total : Z) : M W unit :=
  progress_loop self delay 0 (Z.to_nat total).

(** [d[key]] on a dict in which the key may be absent. *)
Definition getitem {A} (key : string) (v : option A) : M W A :=
  match v with
  | Some a => ret a
  | None => raise (KeyError key)
  end.

(** The [while True] loop of [_download_augmented_images_pointers], cut off
    after [bound] iterations.  It yields [None] for the bare [return] and the
    accumulated list after [break]. *)
Fixpoint listing_loop (bound : nat) (kwargs : Kwargs)
  (image_pointers : list ObjectPointer)
  : M W (option (list ObjectPointer)) :=
  match bound with
  | O => raise LoopBound
  | S bound' =>
      response <-
        call (s3_list_objects_v2 kwargs) (EvListObjects kwargs) ;;
      extended <-
        except_KeyError
          (objects <- getitem "Contents" (Contents response) ;;
           ret (Some (image_pointers ++ objects)%list))
          (ret None) ;;
      match extended with
      | None => ret None
      | Some image_pointers =>
          next <-
            except_KeyError
              (token <- getitem "NextContinuationToken"
                          (NextContinuationToken response) ;;
               ret (Some {| Bucket := Bucket kwargs;
                            ContinuationToken := Some token |}))
              (ret None) ;;
          match next with
          | Some kwargs => listing_loop bound' kwargs image_pointers
          | None => ret (Some image_pointers)
          end
      end
  end.

Definition _download_augmented_images_pointers (bound : nat)
  (self : Interface) : M W (option (list ObjectPointer)) :=
  let image_pointers := [] in
  let kwargs := {| Bucket := augmented_images_bucket self;
                   ContinuationToken := None |} in
  listing_loop bound kwargs image_pointers.

(** [executor.map(self._download_one_file, iterable)] builds its tasks with
    [zip(iterable)], which raises for an object that is not iterable.  The
    tasks themselves run on the pool's threads and are not followed here. *)
Definition executor_map (iterable : option (list ObjectPointer))
  : M W unit :=
  fun w =>
    {| res := match iterable with
              | Some _ => Ok tt
              | None => Raise (TypeError "'NoneType' object is not iterable")
              end;
       world := w;
       log := [EvPoolMap iterable] |}.

Definition download_augmented_images (bound : nat) (self : Interface)
  : M W unit :=
  image_pointers <- _download_augmented_images_pointers bound self ;;
  executor_map image_pointers.

End Interface.

Arguments Interface : clear implicits.

(** ** A small concrete world

    Buckets are a list of names, every command answers from a fixed table,
    and listing pages are served from a queue. *)

Record Sim := {
  sim_environ : list (string * string);
  sim_buckets : list string;
  sim_shell : string -> ProcOut;
  sim_pages : list Response
}.

Fixpoint assoc (key : string) (l : list (string * string)) : option string :=
  match l with
  | [] => None
  | (k, v) :: l' => if String.eqb k key then Some v else assoc key l'
  end.

Definition sim_run (argv : list string) (w : Sim) : Sim :=
  match argv with
  | ["aws"; "s3api"; "create-bucket"; "--bucket"; name; "--region"; _] =>
      {| sim_environ := sim_environ w;
         sim_buckets := name :: sim_buckets w;
         sim_shell := sim_shell w;
         sim_pages := sim_pages w |}
  | _ => w
  end.

Definition sim_list (kwargs : Kwargs) (w : Sim) : Response * Sim :=
  match sim_pages w with
  | [] => ({| Contents := None; NextContinuationToken := None |}, w)
  | page :: pages =>
      (page,
       {| sim_environ := sim_environ w;
          sim_buckets := sim_buckets w;
          sim_shell := sim_shell w;
          sim_pages := pages |})
  end.

#[export] Instance Sim_External : External Sim := {|
  os_environ := fun w key => assoc key (sim_environ w);
  shell_exec := fun command w => (sim_shell w command, w);
  subprocess_run := sim_run;
  s3_buckets_all := fun w => (sim_buckets w, w);
  s3_list_objects_v2 := sim_list;
  yaml_creation := fun _ w => w;
  time_sleep := fun _ w => w
|}.

Definition says (text : string) : ProcOut :=
  {| stdout := text; stderr := ""; returncode := 0 |}.

(** A command that fails the way [kubectl] does: nothing on standard output,
    a message on the error stream, a non-zero exit status. *)
Definition failing_kubectl : Sim :=
  {| sim_environ := [];
     sim_buckets := [];
     sim_shell := fun _ =>
       {| stdout := "";
          stderr := "error: the path secret.yaml does not exist";
          returncode := 1 |};
     sim_pages := [] |}.

(** A poll log whose last line reports the counter 0. *)
Definition poll_at_zero : Sim :=
  {| sim_environ := [];
     sim_buckets := [];
     sim_shell := fun _ => says ("1:working" ++ Py.LF ++ "0:working" ++ Py.LF);
     sim_pages := [] |}.

(** A poll log whose last line starts with [42:]. *)
Definition poll_at_42 : Sim :=
  {| sim_environ := [];
     sim_buckets := [];
     sim_shell := fun _ => says ("43:..." ++ Py.LF ++ "42:..." ++ Py.LF);
     sim_pages := [] |}.

(** A world in which no command prints anything. *)
Definition silent : Sim :=
  {| sim_environ := [];
     sim_buckets := [];
     sim_shell := fun _ => says "";
     sim_pages := [] |}.

(** The events that reach outside the process: everything but writes to the
    console. *)
Definition external_call (e : Event) : bool :=
  match e with
  | EvWrite _ => false
  | _ => true
  end.

(** A world with every tool installed, all three buckets in place, the
    environment set for the prefix [demo] and a cluster that reports ready. *)
Definition demo_ready : Sim :=
  {| sim_environ := [("KOPS_CLUSTER_NAME", "demo.k8s.local");
                     ("KOPS_STATE_STORE", "s3://demo-kops-state-store")];
     sim_buckets := ["demo-kops-state-store"; "demo-original-images-bucket";
                     "demo-augmented-images-bucket"];
     sim_shell := fun _ => says ("Your cluster demo.k8s.local is ready" ++ Py.LF);
     sim_pages := [] |}.

(** The same world with the cluster name exported for another prefix. *)
Definition demo_misnamed : Sim :=
  {| sim_environ := [("KOPS_CLUSTER_NAME", "kaleidoscope.k8s.local");
                     ("KOPS_STATE_STORE", "s3://demo-kops-state-store")];
     sim_buckets := sim_buckets demo_ready;
     sim_shell := sim_shell demo_ready;
     sim_pages := [] |}.

(** ** Predicates used in the statements *)

Section Predicates.

Context {W : Type} {Ext : External W}.

(** A method whose only normal result is [x]. *)
Definition returns_only {A} (x : A) (m : M W A) : Prop :=
  forall w y, res (m w) = Ok y -> y = x.

End Predicates.

(** A world with the tools installed and the environment set for [demo],
    without buckets and without a cluster that is ready. *)
Definition silent_ready : Sim :=
  {| sim_environ := sim_environ demo_ready;
     sim_buckets := [];
     sim_shell := fun _ => says "usage";
     sim_pages := [] |}.

(** ** Listing sequences *)

Section ListingSequences.

Context {W : Type} {Ext : External W}.

(** From the world [w] on, the store answers the listing call for [bucket]
    carrying [token] with the first page, the call carrying that page's
    continuation token with the second page, and so on through [pages]. *)
Fixpoint serves (w : W) (bucket : string) (token : option string)
  (pages : list Response) : Prop :=
  match pages with
  | [] => True
  | page :: pages' =>
      let answer :=
        s3_list_objects_v2
          {| Bucket := bucket; ContinuationToken := token |} w in
      fst answer = page
      /\ serves (snd answer) bucket (NextContinuationToken page) pages'
  end.

(** The calls that fetch [pages] one by one, each carrying the continuation
    token of the page before it. *)
Fixpoint listing_calls (bucket : string) (token : option string)
  (pages : list Response) : list Event :=
  match pages with
  | [] => []
  | page :: pages' =>
      EvListObjects {| Bucket := bucket; ContinuationToken := token |} page
      :: listing_calls bucket (NextContinuationToken page) pages'
  end.

End ListingSequences.

Definition contents_of (page : Response) : list ObjectPointer :=
  match Contents page with
  | Some objects => objects
  | None => []
  end.

Definition has_contents (page : Response) : bool :=
  match Contents page with Some _ => true | None => false end.

Definition has_token (page : Response) : bool :=
  match NextContinuationToken page with Some _ => true | None => false end.

(** A page that has contents and names a successor. *)
Definition inner_page (page : Response) : Prop :=
  has_contents page = true /\ has_token page = true.

(** The pages' contents, in order. *)
Definition all_contents (pages : list Response) : list ObjectPointer :=
  concat (map contents_of pages).

Definition o1 : ObjectPointer := {| Key := "a/1.png"; ETag := "e1" |}.
Definition o2 : ObjectPointer := {| Key := "a/2.png"; ETag := "e2" |}.
Definition o3 : ObjectPointer := {| Key := "b/3.png"; ETag := "e3" |}.

Definition page1 : Response :=
  {| Contents := Some [o1; o2]; NextContinuationToken := Some "T1" |}.
Definition page2 : Response :=
  {| Contents := Some [o3]; NextContinuationToken := None |}.

(** A page without a contents key, as the store sends for an empty
    listing. *)
Definition no_contents : Response :=
  {| Contents := None; NextContinuationToken := None |}.

Definition two_pages : Sim :=
  {| sim_environ := [];
     sim_buckets := ["demo-augmented-images-bucket"];
     sim_shell := fun _ => says "";
     sim_pages := [page1; page2] |}.

(** The second page arrives without a contents key. *)
Definition broken_second_page : Sim :=
  {| sim_environ := [];
     sim_buckets := ["demo-augmented-images-bucket"];
     sim_shell := fun _ => says "";
     sim_pages := [page1; no_contents] |}.

(** ** Monitors over the log

    A temporal property of a run is stated by an automaton that reads the
    log event by event and gets stuck on the first event that violates the
    property. *)

Section Monitor.

Context {W : Type} {Ext : External W} {S : Type}.

Variable step : S -> Event -> option S.

Fixpoint run (s : S) (l : list Event) : option S :=
  match l with
  | [] => Some s
  | e :: l' =>
      match step s e with
      | Some s' => run s' l'
      | None => None
      end
  end.

(** From the monitor state [s], every run of [m] is read to the end, and the
    result and final state satisfy [Q]. *)
Definition accepts {A} (s : S) (m : M W A) (Q : Result A -> S -> Prop)
  : Prop :=
  forall w, exists s', run s (log (m w)) = Some s' /\ Q (res (m w)) s'.

End Monitor.

(** Every event that is [guarded] comes after an event that is a [trigger]:
    the state tells whether a trigger has been seen. *)
Definition gate_step (trigger guarded : Event -> bool) (seen : bool)
  (e : Event) : option bool :=
  if guarded e && negb seen then None
  else Some (if trigger e then true else seen).

(** No event that is [barred] comes after an event that is a [trigger]. *)
Definition bar_step (trigger barred : Event -> bool) (seen : bool)
  (e : Event) : option bool :=
  if barred e && seen then None
  else Some (if trigger e then true else seen).

(** ** The phases of the bring-up *)

(** Requests that change the object store: bucket creation and
    versioning. *)
Definition storage_request (e : Event) : bool :=
  match e with
  | EvRun _ => true
  | _ => false
  end.

(** Steps against the cluster: the readiness probe and every other [kops]
    command, the writing of manifests, and the activation of a stage. *)
Definition cluster_step (e : Event) : bool :=
  match e with
  | EvPopen command _ =>
      String.prefix "kops " command || String.prefix "kubectl create" command
  | EvYaml _ => true
  | _ => false
  end.

Definition environ_lookup (e : Event) : bool :=
  match e with
  | EvEnviron _ _ => true
  | _ => false
  end.

(** The lookup of [key] that found [expected]. *)
Definition environ_is (key expected : string) (e : Event) : bool :=
  match e with
  | EvEnviron k (Some v) => String.eqb k key && String.eqb v expected
  | _ => false
  end.

Inductive Stage := Secret | SecretStore | RedisService | RedisMaster.

Definition base_order : list Stage :=
  [Secret; SecretStore; RedisService; RedisMaster].

Definition stage_of_command (command : string) : option Stage :=
  if String.eqb command "kubectl create -f secret.yaml" then Some Secret
  else if String.eqb command "kubectl create -f secret_store.yaml"
  then Some SecretStore
  else if String.eqb command "kubectl create -f redis_service.yaml"
  then Some RedisService
  else if String.eqb command "kubectl create -f redis_master.yaml"
  then Some RedisMaster
  else None.

(** The base-phase stage an event activates, if any. *)
Definition activation (e : Event) : option Stage :=
  match e with
  | EvPopen command _ => stage_of_command command
  | _ => None
  end.

Definition activates (e : Event) : bool :=
  match activation e with Some _ => true | None => false end.

(** The stages activated in a log, in order. *)
Fixpoint activations (l : list Event) : list Stage :=
  match l with
  | [] => []
  | e :: l' =>
      match activation e with
      | Some stage => stage :: activations l'
      | None => activations l'
      end
  end.

Definition collect_step (done : list Stage) (e : Event)
  : option (list Stage) :=
  match activation e with
  | Some stage => Some (done ++ [stage])%list
  | None => Some done
  end.

(** A readiness probe that answered [Ready] for the cluster of [self]. *)
Definition ready_probe (self : Interface) (e : Event) : bool :=
  match e with
  | EvPopen command out =>
      String.eqb command "kops validate cluster"
      && Py.contains (ready_message self) (Py.strip (stdout out))
  | _ => false
  end.

(** A fresh account: the tools are installed, no bucket exists yet, and the
    environment still names another cluster. *)
Definition fresh_account : Sim :=
  {| sim_environ := [("KOPS_CLUSTER_NAME", "kaleidoscope.k8s.local");
                     ("KOPS_STATE_STORE", "s3://kaleidoscope-kops-state-store")];
     sim_buckets := [];
     sim_shell := fun _ => says "usage";
     sim_pages := [] |}.

(** The order of validation and provisioning as the specification words it:
    in every construction, a request that changes the object store is issued
    only after both environment variables were looked up and found equal to
    the values derived from the prefix. *)
Definition validation_precedes_provisioning : Prop :=
  forall (W : Type) (Ext : External W) (prefix : string) (verbose : bool)
         (w : W) (before : list Event) (e : Event) (after : list Event),
    log (__init__ prefix verbose w) = (before ++ e :: after)%list ->
    storage_request e = true ->
    In (EvEnviron "KOPS_CLUSTER_NAME" (Some (prefix ++ ".k8s.local"))) before
    /\ In (EvEnviron "KOPS_STATE_STORE"
             (Some ("s3://" ++ prefix ++ "-kops-state-store"))) before.

(** ** Provisioning *)

(** The request [_create_bucket] issues for a bucket. *)
Definition creation_request (bucket_name : string) : Event :=
  EvRun (Py.split_ws (create_bucket_command bucket_name)).

(** One existence check that was answered with [names], followed by the
    creation request exactly when [bucket_name] is not among them. *)
Definition ensured (bucket_name : string) (names : list string)
  : list Event :=
  EvBuckets names
  :: (if existsb (String.eqb bucket_name) names then []
      else [creation_request bucket_name]).

Section Store.

Context {W : Type} {Ext : External W}.

(** The answer an existence check for [bucket_name] would get in [w]. *)
Definition listed (bucket_name : string) (w : W) : bool :=
  existsb (String.eqb bucket_name) (fst (s3_buckets_all w)).

(** The store behaves as a set of buckets towards [names]: listing changes
    nothing, and a creation request adds the bucket it names and no
    other. *)
Definition store_keeps (names : list string) : Prop :=
  (forall w b, In b names -> listed b (snd (s3_buckets_all w)) = listed b w)
  /\ (forall w b b', In b names -> In b' names ->
        listed b
          (subprocess_run (Py.split_ws (create_bucket_command b')) w)
        = String.eqb b b' || listed b w).

End Store.

(** An account that may list buckets and may not create them: every
    request through [aws] fails and leaves the store as it was.  The exit
    status of the request is not looked at by [_create_bucket]. *)
Record ReadOnly := {
  account : Sim
}.

#[export] Instance ReadOnly_External : External ReadOnly := {|
  os_environ := fun w key => assoc key (sim_environ (account w));
  shell_exec := fun command w => (sim_shell (account w) command, w);
  subprocess_run := fun _ w => w;
  s3_buckets_all := fun w => (sim_buckets (account w), w);
  s3_list_objects_v2 := fun kwargs w =>
    (fst (sim_list kwargs (account w)),
     {| account := snd (sim_list kwargs (account w)) |});
  yaml_creation := fun _ w => w;
  time_sleep := fun _ w => w
|}.

Definition read_only_account : ReadOnly := {| account := silent |}.

(** Idempotence as the specification words it: against any store, two
    calls of the ensure operation in sequence issue exactly one creation
    request for a bucket the store did not list at the start, and none for
    a bucket it listed. *)
Definition provisioning_is_idempotent : Prop :=
  forall (W : Type) (Ext : External W) (prefix : string) (verbose : bool)
         (w : W),
    let self := new_self prefix verbose in
    filter storage_request
      (log ((create_image_buckets self ;; create_image_buckets self)%py w))
    = ((if listed (original_images_bucket self) w then []
        else [creation_request (original_images_bucket self)])
       ++ (if listed (augmented_images_bucket self) w then []
           else [creation_request (augmented_images_bucket self)]))%list.

(** The request that enables versioning on a bucket. *)
Definition versioning_request (bucket_name : string) : Event :=
  EvRun (Py.split_ws
           ("aws s3api put-bucket-versioning --bucket " ++ bucket_name
            ++ " --versioning-configuration Status=Enabled")).

(** The existence check of the state store answered with [names], followed
    by creation and versioning exactly when the store is not among them. *)
Definition ensured_state_store (bucket_name : string) (names : list string)
  : list Event :=
  EvBuckets names
  :: (if existsb (String.eqb bucket_name) names then []
      else [creation_request bucket_name; versioning_request bucket_name]).

(** Calls to the object store: existence checks and requests. *)
Definition storage_call (e : Event) : bool :=
  match e with
  | EvBuckets _ | EvRun _ => true
  | _ => false
  end.

(** The monitor that keeps the events selected by [keep]. *)
Definition record_step (keep : Event -> bool) (kept : list Event)
  (e : Event) : option (list Event) :=
  Some (if keep e then kept ++ [e] else kept)%list.


(** * Further parts of the code *)

(** ** Cluster life cycle (interface.py) *)

Section Lifecycle.

Context {W : Type} {Ext : External W}.





End Lifecycle.

(** ASCII text: bytes on which [bytes.decode()] cannot fail and changes
    nothing, so that the text read is the text printed. *)
Definition is_ascii (s : string) : bool :=
  forallb (fun c => (nat_of_ascii c <? 128)%nat) (list_ascii_of_string s).

(** A run in which every command read through the shell printed ASCII
    text. *)
Definition ascii_answer (e : Event) : bool :=
  match e with
  | EvPopen _ out => is_ascii (stdout out)
  | _ => true
  end.

Definition ascii_answers (l : list Event) : bool := forallb ascii_answer l.

Definition is_prefix {A : Type} (l l' : list A) : Prop :=
  exists rest, l' = (l ++ rest)%list.

(** The six manifests of the base cluster, in the order they are written. *)
Definition base_manifests (self : Interface) : list Event :=
  [EvYaml create_secret_yaml;
   EvYaml create_secret_store_yaml;
   EvYaml create_redis_service_yaml;
   EvYaml create_redis_master_yaml;
   EvYaml (create_queue_maker_yaml (original_images_bucket self));
   EvYaml create_poll_yaml].



(** The monitor that remembers whether a [trigger] event has occurred. *)
Definition seen_step (trigger : Event -> bool) (seen : bool) (e : Event)
  : option bool :=
  Some (if trigger e then true else seen).

(** The answer of a tool to its installation check, when it printed
    something. *)
Definition tool_answered (command : string) (e : Event) : bool :=
  match e with
  | EvPopen c out =>
      String.eqb c command && negb (Py.len (Py.strip (stdout out)) =? 0)%Z
  | _ => false
  end.




Definition no_whitespace (s : string) : Prop :=
  forall c, In c (list_ascii_of_string s) -> Py.isspace c = false.

(** The two messages of the environment check. *)
Definition name_hint (self : Interface) : string :=
  "please run this command in Terminal and try again:"
  ++ "'export KOPS_CLUSTER_NAME=" ++ Py.DQ ++ cluster_name self ++ Py.DQ
  ++ "' >> $HOME/.bash_profile".

Definition store_hint (self : Interface) : string :=
  "please run this command in Terminal and try again:"
  ++ "'export KOPS_STATE_STORE=" ++ Py.DQ
  ++ ("s3://" ++ kops_state_store_name self) ++ Py.DQ
  ++ "' >> $HOME/.bash_profile".

(** A world whose environment has the cluster name right and the state
    store wrong. *)
Definition store_misnamed : Sim :=
  {| sim_environ := [("KOPS_CLUSTER_NAME", "demo.k8s.local");
                     ("KOPS_STATE_STORE", "s3://other-store")];
     sim_buckets := [];
     sim_shell := fun _ => says "usage";
     sim_pages := [] |}.

(** The four activations of the base phase, with the outputs they got. *)
Definition base_activations (out1 out2 out3 out4 : ProcOut) : list Event :=
  [EvPopen "kubectl create -f secret.yaml" out1;
   EvPopen "kubectl create -f secret_store.yaml" out2;
   EvPopen "kubectl create -f redis_service.yaml" out3;
   EvPopen "kubectl create -f redis_master.yaml" out4].

(** The ways the cluster phase of a construction can go: it is not
    reached; the probe does not answer [Ready]; or it does, and the
    manifests are written and the stages activated. *)
Definition cluster_phase (self : Interface) (r : Result Interface)
  (steps : list Event) : Prop :=
  (steps = [] /\ exists e, r = Raise e)
  \/ (exists out,
        steps = [EvPopen "kops validate cluster" out]
        /\ ready_probe self (EvPopen "kops validate cluster" out) = false
        /\ r = Ok self)
  \/ (exists out out1 out2 out3 out4,
        steps
        = (EvPopen "kops validate cluster" out
           :: base_manifests self ++ base_activations out1 out2 out3 out4)%list
        /\ ready_probe self (EvPopen "kops validate cluster" out) = true
        /\ r = Ok self).

(** The steps against the cluster that a construction runs through when
    its probe got [out]: the probe and, after the answer [Ready] only, the
    manifests and the activations. *)
Definition cluster_steps_in_full (self : Interface)
  (out out1 out2 out3 out4 : ProcOut) : list Event :=
  EvPopen "kops validate cluster" out
  :: (if ready_probe self (EvPopen "kops validate cluster" out)
      then base_manifests self ++ base_activations out1 out2 out3 out4
      else [])%list.

(** The command lines passed to the shell in a log, in order. *)
Fixpoint shell_commands (l : list Event) : list string :=
  match l with
  | [] => []
  | EvPopen command _ :: l' => command :: shell_commands l'
  | _ :: l' => shell_commands l'
  end.


(** How a run of the listing loop over the received [pages] can end, with
    [acc] listed before: at the iteration bound, at a page without contents,
    or at a page with contents and without a token. *)
Definition listing_outcome (bound : nat) (acc : list ObjectPointer)
  (pages : list Response) (r : Result (option (list ObjectPointer)))
  : Prop :=
  (r = Raise LoopBound /\ length pages = bound /\ Forall inner_page pages)
  \/ exists first final,
       pages = (first ++ [final])%list
       /\ Forall inner_page first
       /\ (length first < bound)%nat
       /\ ((Contents final = None /\ r = Ok None)
           \/ (has_contents final = true
               /\ NextContinuationToken final = None
               /\ r = Ok (Some (acc ++ all_contents pages)%list))).

(** ** Downloading one file (interface.py) *)

(** [os.path] on POSIX. *)
Module OsPath.

Definition is_slash (c : ascii) : bool := Ascii.eqb c "/".


Fixpoint all_slashes (s : string) : bool :=
  match s with
  | EmptyString => true
  | String c s' => is_slash c && all_slashes s'
  end.



End OsPath.






(** ** The credentials manifest (create_secret_yaml.py)

    [bytes] are [string]s whose characters are the bytes.  The rows of a
    manifest are a Python list that the function updates in place and
    hands back: an outcome gives the caller's list as the call leaves it,
    beside what was returned or raised.  The module [yaml_creation] is not
    part of the sources: its row finder is a function from the rows and a
    label to an [int], its loader gives the rows of a template, and its
    writer is recorded as a write of rows to a path. *)

Module Base64.

(** [str.encode()]: UTF-8 of code points below 256. *)
Definition encode_char (c : ascii) : string :=
  let n := N_of_ascii c in
  if (n <? 128)%N then String c ""
  else String (ascii_of_N (192 + n / 64)) (String (ascii_of_N (128 + n mod 64)) "").

Fixpoint encode (s : string) : string :=
  match s with
  | EmptyString => EmptyString
  | String c s' => encode_char c ++ encode s'
  end.

Definition alphabet : string :=
  "ABCDEFGHIJKLMNOPQRSTUVWXYZabcdefghijklmnopqrstuvwxyz0123456789+/".

Definition pad : ascii := "="%char.

Definition digit (n : N) : ascii :=
  match String.get (N.to_nat n) alphabet with
  | Some c => c
  | None => pad
  end.

(** [base64.b64encode(b)] *)
Fixpoint b64encode (b : string) : string :=
  match b with
  | EmptyString => EmptyString
  | String x EmptyString =>
      let n := (N_of_ascii x * 65536)%N in
      String (digit (n / 262144))
        (String (digit ((n / 4096) mod 64)) (String pad (String pad "")))
  | String x (String y EmptyString) =>
      let n := (N_of_ascii x * 65536 + N_of_ascii y * 256)%N in
      String (digit (n / 262144))
        (String (digit ((n / 4096) mod 64))
           (String (digit ((n / 64) mod 64)) (String pad "")))
  | String x (String y (String z rest)) =>
      let n := (N_of_ascii x * 65536 + N_of_ascii y * 256 + N_of_ascii z)%N in
      String (digit (n / 262144))
        (String (digit ((n / 4096) mod 64))
           (String (digit ((n / 64) mod 64))
              (String (digit (n mod 64)) (b64encode rest))))
  end.

End Base64.

Module PyBytes.

Definition QUOTE : ascii := ascii_of_nat 39.
Definition DQUOTE : ascii := ascii_of_nat 34.
Definition BSLASH : ascii := ascii_of_nat 92.

Fixpoint has (c : ascii) (b : string) : bool :=
  match b with
  | EmptyString => false
  | String x b' => Ascii.eqb x c || has c b'
  end.

Definition hex_digit (n : N) : ascii :=
  match String.get (N.to_nat n) "0123456789abcdef" with
  | Some c => c
  | None => "0"%char
  end.

Definition repr_byte (quote c : ascii) : string :=
  let n := N_of_ascii c in
  if Ascii.eqb c quote || Ascii.eqb c BSLASH then String BSLASH (String c "")
  else if (n =? 9)%N then String BSLASH "t"
  else if (n =? 10)%N then String BSLASH "n"
  else if (n =? 13)%N then String BSLASH "r"
  else if (n <? 32)%N || (127 <=? n)%N
  then String BSLASH (String "x" (String (hex_digit (n / 16))
                                    (String (hex_digit (n mod 16)) "")))
  else String c "".

Fixpoint repr_bytes (quote : ascii) (b : string) : string :=
  match b with
  | EmptyString => EmptyString
  | String c b' => repr_byte quote c ++ repr_bytes quote b'
  end.

(** [repr(b)], which is what an f-string puts for a [bytes] value. *)
Definition repr (b : string) : string :=
  let quote := if has QUOTE b && negb (has DQUOTE b) then DQUOTE else QUOTE in
  String "b" (String quote (repr_bytes quote b ++ String quote "")).

(** A byte that [repr] writes as it is, between single quotes. *)
Definition plain (c : ascii) : bool :=
  let n := N_of_ascii c in
  (32 <=? n)%N && (n <? 127)%N
  && negb (Ascii.eqb c QUOTE) && negb (Ascii.eqb c DQUOTE)
  && negb (Ascii.eqb c BSLASH).

Fixpoint all_plain (b : string) : bool :=
  match b with
  | EmptyString => true
  | String c b' => plain c && all_plain b'
  end.

End PyBytes.

Module PyList.

Fixpoint set_nth (l : list string) (n : nat) (v : string) : list string :=
  match l, n with
  | [], _ => []
  | _ :: l', O => v :: l'
  | x :: l', S n' => x :: set_nth l' n' v
  end.

(** [l[k] = v]: an index below zero counts from the end; [None] stands for
    [IndexError]. *)
Definition setitem (l : list string) (k : Z) (v : string)
  : option (list string) :=
  let n := Z.of_nat (length l) in
  let k' := if (k <? 0)%Z then (k + n)%Z else k in
  if (0 <=? k')%Z && (k' <? n)%Z then Some (set_nth l (Z.to_nat k') v)
  else None.

End PyList.

Module CreateSecretYaml.

Inductive Raised :=
| UnboundLocalError (name : string)
| IndexError.

Inductive Completion :=
| Returns (rows : list string)
| Raises (e : Raised).

(** How a call ends: what it returned or raised, the list of the caller
    as the call leaves it, and what it printed. *)
Record Run := {
  completion : Completion;
  rows_after : list string;
  printed : list string
}.

(** The locals bound in the [try] block; [None] is a local that is not
    bound. *)
Record Locals := {
  key : option string;
  secret_key : option string;
  region : option string
}.

Definition credentials_hint : string :=
  "Set AWS_ACCESS_KEY_ID, AWS_SECRET_ACCESS_KEY, and AWS_DEFAULT_REGION in your environment variables".

(** A write of rows to a path by [yaml_creation.write_yaml_file]. *)
Record Written := {
  written_rows : list string;
  written_path : string
}.

Section Job.

Variable environ : string -> option string.
Variable get_index_of_row_label : list string -> string -> Z.
Variable load_yaml_template : string -> list string.

(** [base64.b64encode(os.environ[name].encode())]; [None] is [KeyError]. *)
Definition encoded (name : string) : option string :=
  option_map (fun value => Base64.b64encode (Base64.encode value))
    (environ name).

(** The [try] block: the locals it has bound when it ends, and whether it
    ended in the handler of [KeyError]. *)
Definition read_credentials : Locals * bool :=
  match encoded "AWS_ACCESS_KEY_ID" with
  | None => ({| key := None; secret_key := None; region := None |}, true)
  | Some k =>
      match encoded "AWS_SECRET_ACCESS_KEY" with
      | None =>
          ({| key := Some k; secret_key := None; region := None |}, true)
      | Some s =>
          match encoded "AWS_DEFAULT_REGION" with
          | None =>
              ({| key := Some k; secret_key := Some s; region := None |},
               true)
          | Some r =>
              ({| key := Some k; secret_key := Some s; region := Some r |},
               false)
          end
      end
  end.

Definition add_aws_credentials_to_job (yaml : list string) : Run :=
  let (locals, caught) := read_credentials in
  let printed := if caught then [credentials_hint ++ Py.LF] else [] in
  let i := get_index_of_row_label yaml "data" in
  let stop e rows :=
    {| completion := Raises e; rows_after := rows; printed := printed |} in
  match key locals with
  | None => stop (UnboundLocalError "key") yaml
  | Some key =>
      let key := "  AWS_ACCESS_KEY_ID: " ++ PyBytes.repr key ++ Py.LF in
      match secret_key locals with
      | None => stop (UnboundLocalError "secret_key") yaml
      | Some secret_key =>
          let secret_key :=
            "  AWS_DEFAULT_REGION: " ++ PyBytes.repr secret_key ++ Py.LF in
          match region locals with
          | None => stop (UnboundLocalError "region") yaml
          | Some region =>
              let region :=
                "  AWS_SECRET_ACCESS_KEY: " ++ PyBytes.repr region ++ Py.LF in
              match PyList.setitem yaml (i + 1) key with
              | None => stop IndexError yaml
              | Some yaml1 =>
                  match PyList.setitem yaml1 (i + 2) secret_key with
                  | None => stop IndexError yaml1
                  | Some yaml2 =>
                      match PyList.setitem yaml2 (i + 3) region with
                      | None => stop IndexError yaml2
                      | Some yaml3 =>
                          {| completion := Returns yaml3;
                             rows_after := yaml3;
                             printed := printed |}
                      end
                  end
              end
          end
      end
  end.

(** [create_secret_yaml()]: the files written, and what remains of the
    run of [add_aws_credentials_to_job]. *)
Definition create_secret_yaml : list Written * Run :=
  let secret_yaml := load_yaml_template "yaml_templates/secret_template.yaml" in
  let run := add_aws_credentials_to_job secret_yaml in
  match completion run with
  | Returns secret_yaml =>
      ([{| written_rows := secret_yaml; written_path := "secret.yaml" |}],
       run)
  | Raises _ => ([], run)
  end.

End Job.

(** The row written under a label for a credential value. *)
Definition credential_row (label value : string) : string :=
  "  " ++ label ++ ": b'" ++ Base64.b64encode (Base64.encode value) ++ "'"
  ++ Py.LF.

End CreateSecretYaml.

(** An environment that holds the three credentials. *)
Definition demo_credentials (name : string) : option string :=
  if String.eqb name "AWS_ACCESS_KEY_ID" then Some "AKIA"
  else if String.eqb name "AWS_SECRET_ACCESS_KEY" then Some "s3cr3t"
  else if String.eqb name "AWS_DEFAULT_REGION" then Some "us-east-1"
  else None.

Definition demo_template : list string :=
  ["apiVersion: v1" ++ Py.LF; "data:" ++ Py.LF; "  a" ++ Py.LF;
   "  b" ++ Py.LF; "  c" ++ Py.LF; "kind: Secret" ++ Py.LF].

(** ** Reading the counter of the poll (interface.py) *)

Definition no_linebreak (s : string) : Prop :=
  forall c, In c (list_ascii_of_string s) -> Py.is_linebreak c = false.

Definition no_colon (s : string) : Prop :=
  forall c, In c (list_ascii_of_string s) -> Ascii.eqb c ":" = false.

(** The poll's log, as [_pass_command_to_shell] returns it. *)
Definition poll_text {W : Type} {Ext : External W} (w : W) : string :=
  Py.strip (stdout (fst (shell_exec "kubectl logs poll" w))).

(** ** Results *)

(** *** The shell wrapper *)

Section Shell.

Context {W : Type} {Ext : External W}.

(** [stderr] is not piped, so [communicate()] hands back [None] for it. *)
Lemma Popen_communicate_error_is_None (command : string) (w : W) :
  res (Popen_communicate command true false w)
  = Ok (Some (stdout (fst (shell_exec command w))), None).
Proof. reflexivity. Qed.

Lemma pass_command_res (command : string) (w : W) :
  res (_pass_command_to_shell command w)
  = Ok (Py.strip (stdout (fst (shell_exec command w)))).
Proof. reflexivity. Qed.

Lemma pass_command_world (command : string) (w : W) :
  world (_pass_command_to_shell command w) = snd (shell_exec command w).
Proof. reflexivity. Qed.

Lemma pass_command_log (command : string) (w : W) :
  log (_pass_command_to_shell command w)
  = [EvPopen command (fst (shell_exec command w))].
Proof. reflexivity. Qed.

(** Whatever the command writes to its error stream, the wrapper returns
    the stripped standard output and raises nothing. *)
Lemma pass_command_never_raises (command : string) (w : W) (e : Exn) :
  res (_pass_command_to_shell command w) <> Raise e.
Proof. rewrite pass_command_res. discriminate. Qed.

End Shell.

(** C5, evaluated where it fails.  The command produces non-empty error
    output, and [_pass_command_to_shell] returns the (empty) standard output
    instead of raising [OSError]: the error stream was never piped. *)
Theorem pass_command_error_output_not_raised :
  let command := "kubectl create -f secret.yaml" in
  let out := fst (shell_exec command failing_kubectl) in
  Py.truthy (stderr out) = true
  /\ res (_pass_command_to_shell command failing_kubectl) = Ok ""
  /\ log (_pass_command_to_shell command failing_kubectl)
     = [EvPopen command out].
Proof. repeat split. Qed.

(** *** The progress sampler *)

Section Progress.

Context {W : Type} {Ext : External W}.

(** With no log output the sampler returns [None] and raises nothing. *)
Lemma get_progress_empty_log (self : Interface) (w : W) :
  Py.strip (stdout (fst (shell_exec "kubectl logs poll" w))) = "" ->
  res (_get_progress self w) = Ok None.
Proof.
  intros H. unfold _get_progress, bind.
  rewrite pass_command_res, H. reflexivity.
Qed.

(** One tick of the display loop after a counter other than 0: the line
    written carries [batch_size * (main + 1)]. *)
Lemma progress_tick_nonzero (self : Interface) (delay main : Z)
  (position : nat) (w : W) :
  (0 <= delay)%Z ->
  res (_get_progress self w) = Ok (Some main) ->
  main <> 0%Z ->
  log (progress_loop self delay position 1 w)
  = (log (_get_progress self w)
     ++ [EvWrite (remaining_line main position); EvSleep delay])%list.
Proof.
  intros Hdelay Hres Hnz. cbn [progress_loop]. unfold bind at 1, sleep.
  apply Z.ltb_ge in Hdelay. rewrite Hdelay.
  rewrite Hres. cbn [res world log].
  apply Z.eqb_neq in Hnz. rewrite Hnz. cbn. reflexivity.
Qed.

(** One tick after the counter 0: nothing is written. *)
Lemma progress_tick_zero (self : Interface) (delay : Z) (position : nat)
  (w : W) :
  (0 <= delay)%Z ->
  res (_get_progress self w) = Ok (Some 0%Z) ->
  log (progress_loop self delay position 1 w)
  = (log (_get_progress self w) ++ [EvSleep delay])%list.
Proof.
  intros Hdelay Hres. cbn [progress_loop]. unfold bind at 1, sleep.
  apply Z.ltb_ge in Hdelay. rewrite Hdelay.
  rewrite Hres. cbn. reflexivity.
Qed.

End Progress.

Lemma batch_size_value : batch_size = 6400%Z.
Proof. reflexivity. Qed.

(** A log tail of [42:...] gives the estimate 275200. *)
Lemma progress_at_42 :
  res (_get_progress (new_self "demo" false) poll_at_42) = Ok (Some 42%Z)
  /\ filter (fun e => negb (external_call e))
       (log (progress (new_self "demo" false) 1 1 poll_at_42))
     = [EvWrite (Py.CR ++ "~275200 original images remaining  -")].
Proof. split; reflexivity. Qed.

Lemma progress_without_log :
  res (_get_progress (new_self "demo" false) silent) = Ok None.
Proof. reflexivity. Qed.

(** C6, evaluated where it fails.  For a log tail of [0:...] the sampler
    returns the counter 0, and the display loop, testing [if main:], treats
    it like [None]: no estimate is written, where [batch_size * (0 + 1)] was
    due. *)
Theorem progress_at_zero_writes_no_estimate :
  let self := new_self "demo" false in
  res (_get_progress self poll_at_zero) = Ok (Some 0%Z)
  /\ filter (fun e => negb (external_call e))
       (log (progress self 1 1 poll_at_zero)) = []
  /\ remaining_line 0 0 = Py.CR ++ "~6400 original images remaining  -".
Proof. repeat split. Qed.

(** *** Derived names *)

Section Names.

Context {W : Type} {Ext : External W}.

Lemma returns_only_ret {A} (x : A) : returns_only (W:=W) x (ret x).
Proof. intros w y H. inversion H. reflexivity. Qed.

Lemma returns_only_raise {A} (x : A) (e : Exn) : returns_only (W:=W) x (raise e).
Proof. intros w y H. discriminate H. Qed.

Lemma returns_only_bind {A B} (x : B) (m : M W A) (f : A -> M W B) :
  (forall a, returns_only x (f a)) -> returns_only x (bind m f).
Proof.
  intros Hf w y. unfold bind. destruct (res (m w)) as [a|e]; cbn.
  - apply Hf.
  - discriminate.
Qed.

Lemma returns_only_if {A} (x : A) (b : bool) (m1 m2 : M W A) :
  returns_only x m1 -> returns_only x m2 ->
  returns_only x (if b then m1 else m2).
Proof. destruct b; auto. Qed.

Lemma init_returns_new_self (prefix : string) (verbose : bool) :
  returns_only (new_self prefix verbose) (__init__ prefix verbose).
Proof.
  unfold __init__.
  repeat first [ apply returns_only_ret | apply returns_only_raise
               | apply returns_only_if | apply returns_only_bind; intros ].
Qed.

End Names.

(** C7.  The four names of an interface are functions of the prefix alone:
    whatever the world and the verbosity, a construction that succeeds
    yields the prefix followed by the fixed suffixes; for [demo] these are
    the four documented names; and two constructions from one prefix agree
    on all four. *)
Theorem derived_names_depend_on_prefix_only :
  (forall (W : Type) (Ext : External W) (prefix : string) (verbose : bool)
          (w : W) (self : Interface),
      res (__init__ prefix verbose w) = Ok self ->
      cluster_name self = prefix ++ ".k8s.local"
      /\ kops_state_store_name self = prefix ++ "-kops-state-store"
      /\ original_images_bucket self = prefix ++ "-original-images-bucket"
      /\ augmented_images_bucket self = prefix ++ "-augmented-images-bucket")
  /\ (forall (W : Type) (Ext : External W) (verbose : bool) (w : W)
             (self : Interface),
         res (__init__ "demo" verbose w) = Ok self ->
         cluster_name self = "demo.k8s.local"
         /\ kops_state_store_name self = "demo-kops-state-store"
         /\ original_images_bucket self = "demo-original-images-bucket"
         /\ augmented_images_bucket self = "demo-augmented-images-bucket")
  /\ (forall (W1 W2 : Type) (Ext1 : External W1) (Ext2 : External W2)
             (prefix : string) (verbose1 verbose2 : bool)
             (w1 : W1) (w2 : W2) (self1 self2 : Interface),
         res (__init__ prefix verbose1 w1) = Ok self1 ->
         res (__init__ prefix verbose2 w2) = Ok self2 ->
         cluster_name self1 = cluster_name self2
         /\ kops_state_store_name self1 = kops_state_store_name self2
         /\ original_images_bucket self1 = original_images_bucket self2
         /\ augmented_images_bucket self1 = augmented_images_bucket self2).
Proof.
  split; [|split].
  - intros W Ext prefix verbose w self H.
    apply init_returns_new_self in H. subst self. repeat split.
  - intros W Ext verbose w self H.
    apply init_returns_new_self in H. subst self. repeat split.
  - intros W1 W2 Ext1 Ext2 prefix v1 v2 w1 w2 self1 self2 H1 H2.
    apply init_returns_new_self in H1, H2. subst. repeat split.
Qed.

Lemma derived_names_witness :
  exists self1 self2,
    res (__init__ "demo" true demo_ready) = Ok self1
    /\ res (__init__ "demo" false silent_ready) = Ok self2
    /\ cluster_name self1 = "demo.k8s.local"
    /\ (cluster_name self1 = cluster_name self2
        /\ kops_state_store_name self1 = kops_state_store_name self2
        /\ original_images_bucket self1 = original_images_bucket self2
        /\ augmented_images_bucket self1 = augmented_images_bucket self2).
Proof.
  exists (new_self "demo" true), (new_self "demo" false).
  assert (H1 : res (__init__ "demo" true demo_ready)
               = Ok (new_self "demo" true)) by reflexivity.
  assert (H2 : res (__init__ "demo" false silent_ready)
               = Ok (new_self "demo" false)) by reflexivity.
  split; [exact H1|]. split; [exact H2|].
  split.
  - exact (proj1 (proj1 (proj2 derived_names_depend_on_prefix_only)
                    Sim Sim_External true demo_ready _ H1)).
  - exact (proj2 (proj2 derived_names_depend_on_prefix_only)
             Sim Sim Sim_External Sim_External "demo" true false
             demo_ready silent_ready _ _ H1 H2).
Defined.

(** *** Validation of the environment *)

(** C8.  For the prefix [demo], when [KOPS_CLUSTER_NAME] is set to anything
    but [demo.k8s.local], the check raises [EnvironmentError]; its message
    contains the expected name, inside the export statement that sets it;
    and nothing but the lookup itself has reached outside the process. *)
Theorem check_environment_mismatch_names_expected_value
  (W : Type) (Ext : External W) (verbose : bool) (w : W) (value : string) :
  os_environ w "KOPS_CLUSTER_NAME" = Some value ->
  value <> "demo.k8s.local" ->
  let o := _check_environmental_variables (new_self "demo" verbose) w in
  exists msg,
    res o = Raise (EnvironmentError msg)
    /\ Py.contains "demo.k8s.local" msg = true
    /\ Py.contains
         ("export KOPS_CLUSTER_NAME=" ++ Py.DQ ++ "demo.k8s.local" ++ Py.DQ)
         msg = true
    /\ filter external_call (log o)
       = [EvEnviron "KOPS_CLUSTER_NAME" (Some value)]
    /\ world o = w.
Proof.
  intros Hv Hne. apply String.eqb_neq in Hne.
  eexists. unfold _check_environmental_variables, environ_getitem, bind.
  destruct verbose; cbn; rewrite Hv; cbn; rewrite Hne; cbn;
    repeat split; reflexivity.
Qed.

Lemma check_environment_mismatch_witness :
  exists msg,
    res (_check_environmental_variables (new_self "demo" true) demo_misnamed)
    = Raise (EnvironmentError msg)
    /\ Py.contains "demo.k8s.local" msg = true.
Proof.
  destruct (check_environment_mismatch_names_expected_value
              Sim_External true demo_misnamed
              (value := "kaleidoscope.k8s.local"))
    as [msg (Hres & Hin & _)].
  - reflexivity.
  - discriminate.
  - exists msg. split; assumption.
Defined.

(** *** Uploading *)

Lemma truthy_nonempty (s : string) : s <> "" -> Py.truthy s = true.
Proof. destruct s; [congruence | reflexivity]. Qed.

(** C9.  Without a local directory and without a remote source,
    [upload_images] raises [ValueError] having issued no external call and
    left the world as it was.  With a remote source alone the first external
    call is the bucket-to-bucket copy, with a local directory alone it is
    the copy from that directory; the queue maker follows.  A source counts
    as given when it is a non-empty string, which is what the code tests. *)
Theorem upload_images_selects_source
  (W : Type) (Ext : External W) (self : Interface) (w : W) :
  (let o := upload_images self None None w in
   res o = Raise (ValueError "at least one image origin must be not None")
   /\ filter external_call (log o) = []
   /\ world o = w)
  /\ (forall s3_origin, s3_origin <> "" ->
      let command :=
        "aws s3 cp s3://" ++ s3_origin ++ " s3://"
        ++ original_images_bucket self ++ " --recursive --quiet" in
      let o := upload_images self None (Some s3_origin) w in
      res o = Ok tt
      /\ filter external_call (log o)
         = [EvPopen command (fst (shell_exec command w));
            EvPopen "kubectl create -f queue_maker.yaml"
              (fst (shell_exec "kubectl create -f queue_maker.yaml"
                      (snd (shell_exec command w))))])
  /\ (forall local_images_directory, local_images_directory <> "" ->
      let command :=
        "aws s3 cp " ++ local_images_directory ++ " s3://"
        ++ original_images_bucket self ++ " --recursive --quiet" in
      let o := upload_images self (Some local_images_directory) None w in
      res o = Ok tt
      /\ filter external_call (log o)
         = [EvPopen command (fst (shell_exec command w));
            EvPopen "kubectl create -f queue_maker.yaml"
              (fst (shell_exec "kubectl create -f queue_maker.yaml"
                      (snd (shell_exec command w))))]).
Proof.
  split; [|split].
  - unfold upload_images, _vprint. destruct (verbose self); repeat split.
  - intros s Hs. apply truthy_nonempty in Hs.
    unfold upload_images, _activate_queue_maker, _vprint.
    destruct (verbose self); cbn; rewrite Hs; cbn; split; reflexivity.
  - intros d Hd. apply truthy_nonempty in Hd.
    unfold upload_images, _activate_queue_maker, _vprint.
    destruct (verbose self); cbn; rewrite Hd; cbn; split; reflexivity.
Qed.

Lemma upload_images_witness :
  filter external_call
    (log (upload_images (new_self "demo" true) (Some "photos") None silent))
  = [EvPopen
       "aws s3 cp photos s3://demo-original-images-bucket --recursive --quiet"
       (says "");
     EvPopen "kubectl create -f queue_maker.yaml" (says "")]
  /\ filter external_call
       (log (upload_images (new_self "demo" true) None (Some "archive")
               silent))
     = [EvPopen
          "aws s3 cp s3://archive s3://demo-original-images-bucket --recursive --quiet"
          (says "");
        EvPopen "kubectl create -f queue_maker.yaml" (says "")].
Proof.
  pose proof (upload_images_selects_source Sim_External
                (new_self "demo" true) silent) as (_ & Hs3 & Hlocal).
  split.
  - apply (Hlocal "photos"). discriminate.
  - apply (Hs3 "archive"). discriminate.
Defined.

(** *** The paginated listing *)

Section Listing.

Context {W : Type} {Ext : External W}.

Lemma listing_calls_length (bucket : string) (pages : list Response) :
  forall token, length (listing_calls bucket token pages) = length pages.
Proof.
  induction pages as [|page pages IH]; intros token; cbn.
  - reflexivity.
  - now rewrite IH.
Qed.

(** One turn of the loop. *)
Lemma listing_loop_turn (bound : nat) (kwargs : Kwargs)
  (acc : list ObjectPointer) (w : W) :
  let answer := s3_list_objects_v2 kwargs w in
  listing_loop (S bound) kwargs acc w
  = match Contents (fst answer) with
    | None =>
        {| res := Ok None; world := snd answer;
           log := [EvListObjects kwargs (fst answer)] |}
    | Some objects =>
        match NextContinuationToken (fst answer) with
        | None =>
            {| res := Ok (Some (acc ++ objects)%list); world := snd answer;
               log := [EvListObjects kwargs (fst answer)] |}
        | Some token =>
            let rest :=
              listing_loop bound
                {| Bucket := Bucket kwargs;
                   ContinuationToken := Some token |}
                (acc ++ objects)%list (snd answer) in
            {| res := res rest; world := world rest;
               log := EvListObjects kwargs (fst answer) :: log rest |}
        end
    end.
Proof.
  cbn. destruct (Contents _); [destruct (NextContinuationToken _)|];
    reflexivity.
Qed.

(** One iteration on a page that has both keys: the contents are appended
    and the loop goes on with the page's token. *)
Lemma listing_loop_inner_page (bound : nat) (kwargs : Kwargs)
  (acc : list ObjectPointer) (w : W) :
  let answer := s3_list_objects_v2 kwargs w in
  inner_page (fst answer) ->
  exists token,
    NextContinuationToken (fst answer) = Some token
    /\ let rest :=
         listing_loop bound
           {| Bucket := Bucket kwargs; ContinuationToken := Some token |}
           (acc ++ contents_of (fst answer))%list (snd answer) in
       res (listing_loop (S bound) kwargs acc w) = res rest
       /\ world (listing_loop (S bound) kwargs acc w) = world rest
       /\ log (listing_loop (S bound) kwargs acc w)
          = EvListObjects kwargs (fst answer) :: log rest.
Proof.
  intros answer [Hc Ht]. subst answer. unfold has_contents, has_token in *.
  destruct (NextContinuationToken _) as [token|] eqn:Etok; [|discriminate].
  destruct (Contents _) as [objects|] eqn:Econ; [|discriminate].
  exists token. split; [reflexivity|].
  unfold contents_of. rewrite listing_loop_turn. cbn zeta.
  rewrite Econ, Etok. repeat split.
Qed.

(** The last iteration: a page with contents and no token ends the loop
    with everything listed so far. *)
Lemma listing_loop_last_page (bound : nat) (kwargs : Kwargs)
  (acc : list ObjectPointer) (w : W) :
  let answer := s3_list_objects_v2 kwargs w in
  has_contents (fst answer) = true ->
  NextContinuationToken (fst answer) = None ->
  let o := listing_loop (S bound) kwargs acc w in
  res o = Ok (Some (acc ++ contents_of (fst answer))%list)
  /\ world o = snd answer
  /\ log o = [EvListObjects kwargs (fst answer)].
Proof.
  intros answer Hc Ht. subst answer. unfold has_contents in *.
  destruct (Contents _) as [objects|] eqn:Econ; [|discriminate].
  unfold contents_of. rewrite listing_loop_turn. cbn zeta.
  rewrite Econ, Ht. repeat split.
Qed.

(** An iteration on a page without a contents key: the method returns
    [None], whatever was listed before and whatever token the page has. *)
Lemma listing_loop_no_contents (bound : nat) (kwargs : Kwargs)
  (acc : list ObjectPointer) (w : W) :
  let answer := s3_list_objects_v2 kwargs w in
  Contents (fst answer) = None ->
  let o := listing_loop (S bound) kwargs acc w in
  res o = Ok None
  /\ world o = snd answer
  /\ log o = [EvListObjects kwargs (fst answer)].
Proof.
  intros answer Hc. subst answer. rewrite listing_loop_turn. cbn zeta.
  rewrite Hc. repeat split.
Qed.

(** The loop over a whole listing sequence: inner pages followed by a
    final page, which either closes the listing or lacks its contents. *)
Lemma listing_loop_pages (bucket : string) (final : Response) :
  forall (pages : list Response) (bound : nat) (token : option string)
         (acc : list ObjectPointer) (w : W),
    Forall inner_page pages ->
    serves w bucket token (pages ++ [final]) ->
    (length pages < bound)%nat ->
    let o :=
      listing_loop bound {| Bucket := bucket; ContinuationToken := token |}
        acc w in
    (has_contents final = true ->
     NextContinuationToken final = None ->
     res o = Ok (Some (acc ++ all_contents (pages ++ [final]))%list)
     /\ log o = listing_calls bucket token (pages ++ [final]))
    /\ (Contents final = None ->
        res o = Ok None
        /\ log o = listing_calls bucket token (pages ++ [final])).
Proof.
  induction pages as [|page pages IH];
    intros bound token acc w Hinner Hserves Hbound;
    (destruct bound as [|bound]; [cbn in Hbound; lia|]).
  - destruct Hserves as [Hfirst _]. cbn [app listing_calls]. split.
    + intros Hc Ht. rewrite <- Hfirst in Hc, Ht |- *.
      destruct (listing_loop_last_page bound _ acc w Hc Ht)
        as (-> & _ & ->).
      unfold all_contents. cbn. now rewrite app_nil_r.
    + intros Hc. rewrite <- Hfirst in Hc |- *.
      now destruct (listing_loop_no_contents bound _ acc w Hc)
        as (-> & _ & ->).
  - inversion Hinner as [|? ? Hpage Hrest]; subst.
    destruct Hserves as [Hfirst Hserves].
    rewrite <- Hfirst in Hpage.
    destruct (listing_loop_inner_page bound _ acc w Hpage)
      as (tok & Htok & Hres & _ & Hlog).
    cbn [Bucket] in Hres, Hlog.
    rewrite Hfirst in Htok. rewrite Htok in Hserves.
    cbn in Hbound.
    destruct (IH bound (Some tok) (acc ++ contents_of page)%list _
                Hrest Hserves ltac:(lia)) as (IHfull & IHnone).
    rewrite Hfirst in Hres, Hlog.
    cbn zeta. rewrite Hres, Hlog, <- !app_comm_cons.
    cbn [listing_calls]. rewrite Htok.
    split.
    + intros Hc Ht. destruct (IHfull Hc Ht) as [-> ->].
      unfold all_contents. cbn [map concat].
      now rewrite app_assoc.
    + intros Hc. now destruct (IHnone Hc) as [-> ->].
Qed.

End Listing.

(** C2.  Let the store serve a listing sequence for the augmented-images
    bucket in which every page has contents, every page but the last names a
    continuation token and the last names none.  Then, for every iteration
    bound above the number of pages before the last,
    [_download_augmented_images_pointers] issues exactly one call per page,
    the first without a token and each later one with the token of the page
    before it, stops after the last page, and returns the pages' contents
    concatenated in order, so without duplicates when the pages hold none.
    In particular a first page [[o1; o2]] with token [T1] and a second page
    [[o3]] without a token give [[o1; o2; o3]] after two calls. *)
Theorem listing_follows_continuation_tokens
  (W : Type) (Ext : External W) (self : Interface) (w : W) :
  (forall (pages : list Response) (final : Response) (bound : nat),
      Forall inner_page pages ->
      has_contents final = true ->
      NextContinuationToken final = None ->
      serves w (augmented_images_bucket self) None (pages ++ [final]) ->
      (length pages < bound)%nat ->
      let o := _download_augmented_images_pointers bound self w in
      res o = Ok (Some (all_contents (pages ++ [final])))
      /\ log o
         = listing_calls (augmented_images_bucket self) None
             (pages ++ [final])
      /\ length (log o) = S (length pages)
      /\ (NoDup (all_contents (pages ++ [final])) ->
          forall pointers, res o = Ok (Some pointers) -> NoDup pointers))
  /\ (forall (p1 p2 p3 : ObjectPointer) (bound : nat),
         serves w (augmented_images_bucket self) None
           [ {| Contents := Some [p1; p2];
                NextContinuationToken := Some "T1" |};
             {| Contents := Some [p3]; NextContinuationToken := None |} ] ->
         (1 < bound)%nat ->
         let o := _download_augmented_images_pointers bound self w in
         res o = Ok (Some [p1; p2; p3])
         /\ length (log o) = 2%nat).
Proof.
  assert (Hgen :
    forall (pages : list Response) (final : Response) (bound : nat),
      Forall inner_page pages ->
      has_contents final = true ->
      NextContinuationToken final = None ->
      serves w (augmented_images_bucket self) None (pages ++ [final]) ->
      (length pages < bound)%nat ->
      let o := _download_augmented_images_pointers bound self w in
      res o = Ok (Some (all_contents (pages ++ [final])))
      /\ log o
         = listing_calls (augmented_images_bucket self) None
             (pages ++ [final])).
  { intros pages final bound Hinner Hc Ht Hserves Hbound.
    unfold _download_augmented_images_pointers.
    destruct (@listing_loop_pages W Ext (augmented_images_bucket self)
                final pages bound None [] w Hinner Hserves Hbound)
      as [Hfull _].
    exact (Hfull Hc Ht). }
  split.
  - intros pages final bound Hinner Hc Ht Hserves Hbound.
    destruct (Hgen pages final bound Hinner Hc Ht Hserves Hbound)
      as [Hres Hlog].
    cbn zeta. rewrite Hres, Hlog. repeat split.
    + rewrite listing_calls_length, length_app. cbn. lia.
    + intros Hnodup pointers Heq. inversion Heq. subst. exact Hnodup.
  - intros p1 p2 p3 bound Hserves Hbound.
    destruct (Hgen [ {| Contents := Some [p1; p2];
                        NextContinuationToken := Some "T1" |} ]
                {| Contents := Some [p3]; NextContinuationToken := None |}
                bound) as [Hres Hlog]; try reflexivity; try assumption.
    + constructor; [split; reflexivity | constructor].
    + cbn zeta. rewrite Hres, Hlog. split; reflexivity.
Qed.

Lemma listing_two_pages_witness :
  res (_download_augmented_images_pointers 2 (new_self "demo" false)
         two_pages)
  = Ok (Some [o1; o2; o3])
  /\ length (log (_download_augmented_images_pointers 2
                    (new_self "demo" false) two_pages)) = 2%nat.
Proof.
  apply (proj2 (listing_follows_continuation_tokens Sim_External
                  (new_self "demo" false) two_pages) o1 o2 o3 2%nat).
  - cbn. repeat split.
  - lia.
Defined.

(** *** Downloading *)

(** C10.  When a page of the listing sequence, the first or a later one,
    has no contents key, [_download_augmented_images_pointers] returns
    [None]: neither the empty list nor the pointers of the pages before.
    [download_augmented_images] hands that [None] to the pool's [map],
    which raises [TypeError] instead of completing. *)
Theorem missing_contents_key_yields_None
  (W : Type) (Ext : External W) (self : Interface) (w : W)
  (pages : list Response) (final : Response) (bound : nat) :
  Forall inner_page pages ->
  Contents final = None ->
  serves w (augmented_images_bucket self) None (pages ++ [final]) ->
  (length pages < bound)%nat ->
  res (_download_augmented_images_pointers bound self w) = Ok None
  /\ (let o := download_augmented_images bound self w in
      log o
      = (listing_calls (augmented_images_bucket self) None
           (pages ++ [final]) ++ [EvPoolMap None])%list
      /\ res o = Raise (TypeError "'NoneType' object is not iterable")).
Proof.
  intros Hinner Hc Hserves Hbound.
  destruct (@listing_loop_pages W Ext (augmented_images_bucket self)
              final pages bound None [] w Hinner Hserves Hbound)
    as [_ Hnone].
  destruct (Hnone Hc) as [Hres Hlog].
  unfold download_augmented_images, _download_augmented_images_pointers,
    bind.
  rewrite Hres, Hlog. repeat split.
Qed.

Lemma missing_contents_key_witness :
  res (_download_augmented_images_pointers 2 (new_self "demo" false)
         broken_second_page) = Ok None
  /\ res (download_augmented_images 2 (new_self "demo" false)
            broken_second_page)
     = Raise (TypeError "'NoneType' object is not iterable").
Proof.
  destruct (@missing_contents_key_yields_None Sim Sim_External
              (new_self "demo" false) broken_second_page
              [page1] no_contents 2) as (Hnone & _ & Hraise).
  - constructor; [split; reflexivity | constructor].
  - reflexivity.
  - cbn. repeat split.
  - cbn. lia.
  - split; assumption.
Defined.

(** *** Reasoning about monitors *)

Section MonitorRules.

Context {W : Type} {Ext : External W} {S : Type}.

Variable step : S -> Event -> option S.

Lemma run_app (l1 l2 : list Event) :
  forall s,
    run step s (l1 ++ l2)
    = match run step s l1 with
      | Some s' => run step s' l2
      | None => None
      end.
Proof.
  induction l1 as [|e l1 IH]; intros s; cbn.
  - reflexivity.
  - destruct (step s e); [apply IH | reflexivity].
Qed.

Lemma accepts_ret {A} (s : S) (a : A) (Q : Result A -> S -> Prop) :
  Q (Ok a) s -> accepts step s (ret (W:=W) a) Q.
Proof. intros H w. exists s. split; [reflexivity | exact H]. Qed.

Lemma accepts_raise {A} (s : S) (e : Exn) (Q : Result A -> S -> Prop) :
  Q (Raise e) s -> accepts step s (raise (W:=W) e) Q.
Proof. intros H w. exists s. split; [reflexivity | exact H]. Qed.

Lemma accepts_bind {A B} (s : S) (m : M W A) (f : A -> M W B)
  (Q : Result B -> S -> Prop) :
  accepts step s m
    (fun r s' =>
       match r with
       | Ok a => accepts step s' (f a) Q
       | Raise e => Q (Raise e) s'
       end) ->
  accepts step s (bind m f) Q.
Proof.
  intros Hm w. destruct (Hm w) as (s1 & Hrun & Hpost).
  unfold bind. destruct (res (m w)) as [a|e].
  - destruct (Hpost (world (m w))) as (s2 & Hrun2 & HQ).
    exists s2. cbn [log res]. rewrite run_app, Hrun. auto.
  - exists s1. auto.
Qed.

Lemma accepts_write (s : S) (text : string)
  (Q : Result unit -> S -> Prop) :
  (exists s', step s (EvWrite text) = Some s' /\ Q (Ok tt) s') ->
  accepts step s (stdout_write (W:=W) text) Q.
Proof.
  intros (s' & Hstep & HQ) w. exists s'. cbn. rewrite Hstep. auto.
Qed.

(** A message that may or may not be shown leaves a monitor that ignores
    writes where it was. *)
Lemma accepts_vprint (s : S) (self : Interface) (text : string)
  (Q : Result unit -> S -> Prop) :
  step s (EvWrite text) = Some s ->
  Q (Ok tt) s ->
  accepts step s (_vprint (W:=W) self text) Q.
Proof.
  intros Hstep HQ. unfold _vprint. destruct (verbose self).
  - apply accepts_write. eauto.
  - apply accepts_ret. exact HQ.
Qed.

Lemma accepts_call {A} (s : S) (f : W -> A * W) (ev : A -> Event)
  (Q : Result A -> S -> Prop) :
  (forall a, exists s', step s (ev a) = Some s' /\ Q (Ok a) s') ->
  accepts step s (call f ev) Q.
Proof.
  intros H w. destruct (H (fst (f w))) as (s' & Hstep & HQ).
  exists s'. cbn. rewrite Hstep. auto.
Qed.

Lemma accepts_act (s : S) (f : W -> W) (ev : Event)
  (Q : Result unit -> S -> Prop) :
  (exists s', step s ev = Some s' /\ Q (Ok tt) s') ->
  accepts step s (act f ev) Q.
Proof.
  intros (s' & Hstep & HQ) w. exists s'. cbn. rewrite Hstep. auto.
Qed.

Lemma accepts_environ (s : S) (key : string)
  (Q : Result string -> S -> Prop) :
  (forall value, exists s',
      step s (EvEnviron key value) = Some s'
      /\ Q (match value with
            | Some v => Ok v
            | None => Raise (KeyError key)
            end) s') ->
  accepts step s (environ_getitem (W:=W) key) Q.
Proof.
  intros H w. destruct (H (os_environ w key)) as (s' & Hstep & HQ).
  exists s'. cbn. rewrite Hstep. auto.
Qed.

(** The shell wrapper issues one [EvPopen] and returns the stripped
    standard output. *)
Lemma accepts_pass_command (s : S) (command : string)
  (Q : Result string -> S -> Prop) :
  (forall out, exists s',
      step s (EvPopen command out) = Some s'
      /\ Q (Ok (Py.strip (stdout out))) s') ->
  accepts step s (_pass_command_to_shell command) Q.
Proof.
  intros H w. destruct (H (fst (shell_exec command w))) as (s' & Hstep & HQ).
  exists s'. rewrite pass_command_log, pass_command_res. cbn.
  rewrite Hstep. auto.
Qed.

Lemma accepts_run_result {A} (s : S) (m : M W A)
  (Q : Result A -> S -> Prop) (w : W) :
  accepts step s m Q ->
  exists s', run step s (log (m w)) = Some s' /\ Q (res (m w)) s'.
Proof. intros H. apply H. Qed.

End MonitorRules.

Section MonitorConsequence.

Context {W : Type} {Ext : External W} {S : Type}.

Variable step : S -> Event -> option S.

Lemma accepts_weaken {A} (s : S) (m : M W A)
  (Q1 Q : Result A -> S -> Prop) :
  accepts step s m Q1 ->
  (forall r s', Q1 r s' -> Q r s') ->
  accepts step s m Q.
Proof.
  intros Hm Himp w. destruct (Hm w) as (s' & Hrun & HQ). eauto.
Qed.

End MonitorConsequence.

(** What the three monitors establish about a log they read to the end. *)

Lemma gate_sound (trigger guarded : Event -> bool) (l : list Event) :
  forall (s s' : bool),
    run (gate_step trigger guarded) s l = Some s' ->
    forall before e after,
      l = (before ++ e :: after)%list ->
      guarded e = true ->
      s = true \/ exists e', In e' before /\ trigger e' = true.
Proof.
  induction l as [|x l IH]; intros s s' Hrun before e after Hsplit Hg.
  - destruct before; discriminate.
  - cbn in Hrun. unfold gate_step in Hrun at 1.
    destruct before as [|b before]; cbn in Hsplit; inversion Hsplit; subst.
    + rewrite Hg in Hrun. destruct s; [now left | discriminate].
    + destruct (guarded b && negb s); [discriminate|].
      destruct (IH _ _ Hrun before e after eq_refl Hg) as [Hs | (e' & Hin & Ht)].
      * destruct (trigger b) eqn:Hb.
        -- right. exists b. split; [now left | exact Hb].
        -- now left.
      * right. exists e'. split; [now right | exact Ht].
Qed.

Lemma bar_sound (trigger barred : Event -> bool) (l : list Event) :
  forall (s s' : bool),
    run (bar_step trigger barred) s l = Some s' ->
    forall before e after,
      l = (before ++ e :: after)%list ->
      barred e = true ->
      s = false /\ forall e', In e' before -> trigger e' = false.
Proof.
  induction l as [|x l IH]; intros s s' Hrun before e after Hsplit Hb.
  - destruct before; discriminate.
  - cbn in Hrun. unfold bar_step in Hrun at 1.
    destruct before as [|b before]; cbn in Hsplit; inversion Hsplit; subst.
    + rewrite Hb in Hrun. destruct s; [discriminate|].
      split; [reflexivity | intros e' []].
    + destruct (barred b && s); [discriminate|].
      destruct (IH _ _ Hrun before e after eq_refl Hb) as [Hs Hall].
      destruct (trigger b) eqn:Htb; [discriminate|].
      split; [exact Hs|]. intros e' [<- | Hin]; auto.
Qed.

Lemma collect_run (l : list Event) :
  forall done, run collect_step done l = Some (done ++ activations l)%list.
Proof.
  induction l as [|e l IH]; intros done; cbn.
  - now rewrite app_nil_r.
  - unfold collect_step at 1. destruct (activation e) as [stage|].
    + rewrite IH, <- app_assoc. reflexivity.
    + apply IH.
Qed.

Lemma record_run (keep : Event -> bool) (l : list Event) :
  forall kept,
    run (record_step keep) kept l = Some (kept ++ filter keep l)%list.
Proof.
  induction l as [|e l IH]; intros kept; cbn.
  - now rewrite app_nil_r.
  - rewrite IH. destruct (keep e); [|reflexivity].
    now rewrite <- app_assoc.
Qed.

Lemma environ_is_eq (key expected : string) (e : Event) :
  environ_is key expected e = true -> e = EvEnviron key (Some expected).
Proof.
  destruct e as [| | | |k [v|]| | | |]; try discriminate. cbn.
  intros H. apply andb_prop in H. destruct H as [Hk Hv].
  apply String.eqb_eq in Hk, Hv. now subst.
Qed.

(** Reading a method event by event: each rule consumes the events of one
    primitive and hands the state on to the continuation.  A conditional
    creation leaves the three monitors where they were, so what follows it
    is read once. *)
Ltac step_event :=
  eexists; split;
  [ try unfold record_step;
    cbn [gate_step bar_step collect_step cluster_step
         storage_request storage_call environ_lookup environ_is activates
         activation stage_of_command ready_probe ready_message cluster_name
         new_self String.eqb Ascii.eqb Bool.eqb String.prefix andb orb negb
         app];
    reflexivity
  | ].

Ltac read_with on_creation :=
  repeat first
    [ on_creation
    | apply accepts_vprint; [reflexivity |]
    | apply accepts_write; step_event
    | apply accepts_pass_command; intros ?out; step_event
    | apply accepts_call; intros ?answer; step_event
    | apply accepts_act; step_event
    | apply accepts_environ; intros [?value|]; step_event
    | apply accepts_ret
    | apply accepts_raise
    | apply accepts_bind
    | match goal with
      | |- accepts _ _ (if negb ?b then _ else _) _ => destruct b eqn:?
      | |- accepts _ _ (if ?b then _ else _) _ => destruct b eqn:?
      end
    | progress cbn beta iota zeta
    | exact I ].

(** A conditional creation that leaves the monitor where it was. *)
Ltac creation_unseen :=
  idtac;
  match goal with
  | |- accepts ?step ?s (bind (if negb ?b then _ else ret tt) _) _ =>
      apply accepts_bind;
      apply accepts_weaken with (Q1 := fun r s' => r = Ok tt /\ s' = s);
      [ destruct b; read_with fail; split; reflexivity
      | intros ? ? [-> ->] ]
  end.

(** A conditional creation whose requests the monitor keeps: the state
    after it depends on the answer of the check. *)
Ltac creation_kept :=
  idtac;
  match goal with
  | |- accepts ?step ?s (bind (if negb ?b then _ else ret tt) _) _ =>
      apply accepts_bind;
      eapply accepts_weaken
        with (Q1 := fun r s' => r = Ok tt /\ s' = if b then s else _);
      [ destruct b; read_with fail; split; reflexivity
      | intros ? ? [-> ->] ]
  end.

Ltac read_log := read_with creation_unseen.
Ltac read_history := read_with creation_kept.

Ltac open_methods :=
  unfold __init__, _package_message_non_zero, _bucket_exists,
    _create_cluster_state_store, create_image_buckets, _create_bucket,
    subprocess_run_argv, _check_environmental_variables, _cluster_ready,
    _configure_base_cluster, _activate_base_components, _activate_secret,
    _activate_secret_store, _activate_redis_service, _activate_redis_master,
    yaml, print;
  cbn [cluster_name kops_state_store_name original_images_bucket
       augmented_images_bucket new_self ready_message].

(** *** The bring-up sequence *)

Section BringUp.

Context {W : Type} {Ext : External W}.

Variables (prefix : string) (verbose : bool).

Lemma init_cluster_name_gate :
  accepts
    (gate_step (environ_is "KOPS_CLUSTER_NAME" (prefix ++ ".k8s.local"))
       cluster_step)
    false (__init__ (W:=W) prefix verbose) (fun _ _ => True).
Proof. open_methods. read_log. Qed.

Lemma init_state_store_gate :
  accepts
    (gate_step
       (environ_is "KOPS_STATE_STORE"
          ("s3://" ++ prefix ++ "-kops-state-store"))
       cluster_step)
    false (__init__ (W:=W) prefix verbose) (fun _ _ => True).
Proof. open_methods. read_log. Qed.

Lemma init_storage_bar :
  accepts (bar_step environ_lookup storage_request)
    false (__init__ (W:=W) prefix verbose) (fun _ _ => True).
Proof. open_methods. read_log. Qed.

Lemma init_ready_gate :
  accepts (gate_step (ready_probe (new_self prefix verbose)) activates)
    false (__init__ (W:=W) prefix verbose) (fun _ _ => True).
Proof. open_methods. read_log. Qed.

Lemma init_collects_base_order :
  accepts collect_step [] (__init__ (W:=W) prefix verbose)
    (fun _ done => done = [] \/ done = base_order).
Proof. open_methods. read_log. all: auto. Qed.

Lemma init_storage_calls :
  accepts (record_step storage_call) [] (__init__ (W:=W) prefix verbose)
    (fun _ kept =>
       kept = []
       \/ exists names0 names1 names2,
            kept
            = (ensured_state_store (prefix ++ "-kops-state-store") names0
               ++ ensured (prefix ++ "-original-images-bucket") names1
               ++ ensured (prefix ++ "-augmented-images-bucket") names2)%list).
Proof.
  open_methods. read_history.
  all: first
    [ left; reflexivity
    | right; exists answer, answer0, answer1;
      unfold ensured_state_store, ensured, creation_request,
        versioning_request;
      repeat match goal with
             | H : existsb _ _ = _ |- _ => rewrite H; clear H
             end;
      destruct (existsb _ answer), (existsb _ answer0); reflexivity ].
Qed.

End BringUp.

(** C1, as amended.  In every construction the validation of the
    environment stands between the provisioning of storage and the steps
    against the cluster.  No readiness probe, manifest or stage activation
    is issued before both variables were looked up and found equal to the
    values derived from the prefix; and every request that changes the
    object store (state store, versioning, image buckets) is issued before
    the first lookup. *)
Theorem validation_follows_storage_and_precedes_cluster
  (W : Type) (Ext : External W) (prefix : string) (verbose : bool) (w : W) :
  let self := new_self prefix verbose in
  let l := log (__init__ prefix verbose w) in
  (forall before e after,
      l = (before ++ e :: after)%list ->
      cluster_step e = true ->
      In (EvEnviron "KOPS_CLUSTER_NAME" (Some (cluster_name self))) before
      /\ In (EvEnviron "KOPS_STATE_STORE"
               (Some ("s3://" ++ kops_state_store_name self))) before)
  /\ (forall before e after,
         l = (before ++ e :: after)%list ->
         storage_request e = true ->
         forall e', In e' before -> environ_lookup e' = false).
Proof.
  cbn zeta. split.
  - intros before e after Hsplit He. split.
    + destruct (init_cluster_name_gate prefix verbose w) as (s' & Hrun & _).
      destruct (gate_sound _ _ _ Hrun _ _ _ Hsplit He)
        as [Hs | (e' & Hin & Ht)]; [discriminate|].
      apply environ_is_eq in Ht. now subst e'.
    + destruct (init_state_store_gate prefix verbose w) as (s' & Hrun & _).
      destruct (gate_sound _ _ _ Hrun _ _ _ Hsplit He)
        as [Hs | (e' & Hin & Ht)]; [discriminate|].
      apply environ_is_eq in Ht. now subst e'.
  - intros before e after Hsplit He.
    destruct (init_storage_bar prefix verbose w) as (s' & Hrun & _).
    exact (proj2 (bar_sound _ _ _ Hrun _ _ _ Hsplit He)).
Qed.

Lemma validation_order_witness :
  let l := log (__init__ "demo" false demo_ready) in
  exists before out after,
    l = (before ++ EvPopen "kops validate cluster" out :: after)%list
    /\ In (EvEnviron "KOPS_CLUSTER_NAME" (Some "demo.k8s.local")) before
    /\ In (EvEnviron "KOPS_STATE_STORE" (Some "s3://demo-kops-state-store"))
         before.
Proof.
  cbn zeta.
  exists (firstn 7 (log (__init__ "demo" false demo_ready))),
    (says ("Your cluster demo.k8s.local is ready" ++ Py.LF)),
    (skipn 8 (log (__init__ "demo" false demo_ready))).
  assert (Hsplit :
    log (__init__ "demo" false demo_ready)
    = (firstn 7 (log (__init__ "demo" false demo_ready))
       ++ EvPopen "kops validate cluster"
            (says ("Your cluster demo.k8s.local is ready" ++ Py.LF))
       :: skipn 8 (log (__init__ "demo" false demo_ready)))%list)
    by (vm_compute; reflexivity).
  split; [exact Hsplit|].
  exact (proj1 (validation_follows_storage_and_precedes_cluster
                  Sim_External "demo" false demo_ready)
           _ _ _ Hsplit eq_refl).
Defined.

(** C1 as the specification words it fails.  On a fresh account whose
    environment names another cluster, the construction creates the state
    store, enables versioning and creates both image buckets, and only then
    raises the validation error. *)
Lemma provisioning_runs_before_validation :
  (filter storage_request (log (__init__ "demo" false fresh_account))
   = [EvRun ["aws"; "s3api"; "create-bucket"; "--bucket";
             "demo-kops-state-store"; "--region"; "us-east-1"];
      EvRun ["aws"; "s3api"; "put-bucket-versioning"; "--bucket";
             "demo-kops-state-store"; "--versioning-configuration";
             "Status=Enabled"];
      EvRun ["aws"; "s3api"; "create-bucket"; "--bucket";
             "demo-original-images-bucket"; "--region"; "us-east-1"];
      EvRun ["aws"; "s3api"; "create-bucket"; "--bucket";
             "demo-augmented-images-bucket"; "--region"; "us-east-1"]]
   /\ exists msg,
       res (__init__ "demo" false fresh_account)
       = Raise (EnvironmentError msg))
  /\ ~ validation_precedes_provisioning.
Proof.
  split.
  - split; [reflexivity | eexists; reflexivity].
  - intros H.
    assert (Hsplit :
      log (__init__ "demo" false fresh_account)
      = (firstn 3 (log (__init__ "demo" false fresh_account))
         ++ EvRun ["aws"; "s3api"; "create-bucket"; "--bucket";
                   "demo-kops-state-store"; "--region"; "us-east-1"]
         :: skipn 4 (log (__init__ "demo" false fresh_account)))%list)
      by (vm_compute; reflexivity).
    destruct (H Sim Sim_External "demo" false fresh_account _ _ _
                Hsplit eq_refl) as [Hin _].
    clear H Hsplit. vm_compute in Hin.
    repeat (destruct Hin as [Hin | Hin]; [discriminate Hin |]). exact Hin.
Qed.

(** C4.  In every construction the base stages are activated in the order
    secret, secret store, redis service, redis master (all four or none),
    and each activation comes after a readiness probe that answered
    [Ready] for this cluster. *)
Theorem base_stages_in_order_after_ready
  (W : Type) (Ext : External W) (prefix : string) (verbose : bool) (w : W) :
  let self := new_self prefix verbose in
  let l := log (__init__ prefix verbose w) in
  (activations l = [] \/ activations l = base_order)
  /\ (forall before e after,
         l = (before ++ e :: after)%list ->
         activates e = true ->
         exists probe, In probe before /\ ready_probe self probe = true).
Proof.
  cbn zeta. split.
  - destruct (init_collects_base_order prefix verbose w)
      as (done & Hrun & Hdone).
    rewrite collect_run in Hrun. inversion Hrun. subst done. exact Hdone.
  - intros before e after Hsplit He.
    destruct (init_ready_gate prefix verbose w) as (s' & Hrun & _).
    destruct (gate_sound _ _ _ Hrun _ _ _ Hsplit He) as [Hs | Hex];
      [discriminate | exact Hex].
Qed.

Lemma base_stages_witness :
  let l := log (__init__ "demo" false demo_ready) in
  activations l = base_order
  /\ exists before out after probe,
       l = (before ++ EvPopen "kubectl create -f secret.yaml" out
            :: after)%list
       /\ In probe before
       /\ ready_probe (new_self "demo" false) probe = true.
Proof.
  cbn zeta. split; [reflexivity|].
  assert (Hsplit :
    log (__init__ "demo" false demo_ready)
    = (firstn 14 (log (__init__ "demo" false demo_ready))
       ++ EvPopen "kubectl create -f secret.yaml"
            (says ("Your cluster demo.k8s.local is ready" ++ Py.LF))
       :: skipn 15 (log (__init__ "demo" false demo_ready)))%list)
    by (vm_compute; reflexivity).
  destruct (proj2 (base_stages_in_order_after_ready
                     Sim_External "demo" false demo_ready)
              _ _ _ Hsplit eq_refl) as (probe & Hin & Hready).
  exists (firstn 14 (log (__init__ "demo" false demo_ready))),
    (says ("Your cluster demo.k8s.local is ready" ++ Py.LF)),
    (skipn 15 (log (__init__ "demo" false demo_ready))), probe.
  auto.
Defined.

(** *** Provisioning of the image buckets *)

Lemma append_inv_head (s a b : string) : s ++ a = s ++ b -> a = b.
Proof.
  induction s as [|c s IH]; cbn; intros H.
  - exact H.
  - inversion H. auto.
Qed.

Lemma image_buckets_differ (prefix : string) (verbose : bool) :
  let self := new_self prefix verbose in
  String.eqb (augmented_images_bucket self) (original_images_bucket self)
  = false.
Proof.
  cbn. apply String.eqb_neq. intros H. apply append_inv_head in H.
  discriminate H.
Qed.

Section Provisioning.

Context {W : Type} {Ext : External W}.

(** What one call of [create_image_buckets] does, step by step. *)
Lemma create_image_buckets_run (self : Interface) (w : W) :
  let orig := original_images_bucket self in
  let aug := augmented_images_bucket self in
  let w1 := snd (s3_buckets_all w) in
  let w2 :=
    if listed orig w
    then w1
    else subprocess_run (Py.split_ws (create_bucket_command orig)) w1 in
  let w3 := snd (s3_buckets_all w2) in
  let w4 :=
    if listed aug w2
    then w3
    else subprocess_run (Py.split_ws (create_bucket_command aug)) w3 in
  let o := create_image_buckets self w in
  res o = Ok tt
  /\ world o = w4
  /\ filter external_call (log o)
     = (ensured orig (fst (s3_buckets_all w))
        ++ ensured aug (fst (s3_buckets_all w2)))%list.
Proof.
  cbn zeta. unfold create_image_buckets, _bucket_exists, _create_bucket,
    subprocess_run_argv, _vprint, ensured, creation_request, listed.
  destruct (verbose self);
    cbn [bind ret call act stdout_write res world log fst snd app];
    destruct (existsb _ (fst (s3_buckets_all w)));
    cbn [bind ret call act stdout_write res world log fst snd app negb];
    destruct (existsb _ (fst (s3_buckets_all _)));
    cbn [bind ret call act stdout_write res world log fst snd app negb
         filter external_call];
    repeat split; reflexivity.
Qed.

Lemma storage_requests_of_external (l : list Event) :
  filter storage_request (filter external_call l) = filter storage_request l.
Proof.
  induction l as [|e l IH]; [reflexivity|].
  destruct e; cbn; rewrite ?IH; reflexivity.
Qed.

Lemma storage_requests_of_ensured (bucket_name : string)
  (names : list string) :
  filter storage_request (ensured bucket_name names)
  = if existsb (String.eqb bucket_name) names then []
    else [creation_request bucket_name].
Proof.
  unfold ensured, creation_request.
  destruct (existsb _ names); reflexivity.
Qed.

(** The creation requests of one call: one for each bucket that its check
    did not find. *)
Lemma create_image_buckets_requests (self : Interface) (w : W) :
  let orig := original_images_bucket self in
  let aug := augmented_images_bucket self in
  let w1 := snd (s3_buckets_all w) in
  let w2 :=
    if listed orig w
    then w1
    else subprocess_run (Py.split_ws (create_bucket_command orig)) w1 in
  filter storage_request (log (create_image_buckets self w))
  = ((if listed orig w then [] else [creation_request orig])
     ++ (if listed aug w2 then [] else [creation_request aug]))%list.
Proof.
  cbn zeta.
  destruct (create_image_buckets_run self w) as (_ & _ & Hlog).
  rewrite <- storage_requests_of_external, Hlog, filter_app,
    !storage_requests_of_ensured.
  reflexivity.
Qed.

Section Twice.

Variable self : Interface.

Let orig := original_images_bucket self.
Let aug := augmented_images_bucket self.

Hypothesis Hdiff : String.eqb aug orig = false.
Hypothesis Hkeep : store_keeps (W:=W) [orig; aug].

Let in_orig : In orig [orig; aug] := or_introl eq_refl.
Let in_aug : In aug [orig; aug] := or_intror (or_introl eq_refl).

Lemma listed_after_check (b : string) (w : W) :
  In b [orig; aug] -> listed b (snd (s3_buckets_all w)) = listed b w.
Proof. apply (proj1 Hkeep). Qed.

Lemma listed_after_creation (b b' : string) (w : W) :
  In b [orig; aug] -> In b' [orig; aug] ->
  listed b (subprocess_run (Py.split_ws (create_bucket_command b')) w)
  = String.eqb b b' || listed b w.
Proof. apply (proj2 Hkeep). Qed.

(** After one call both buckets are listed, and the second bucket was
    checked against the store as it was at the start. *)
Lemma create_image_buckets_effect (w : W) :
  let w1 := snd (s3_buckets_all w) in
  let w2 :=
    if listed orig w
    then w1
    else subprocess_run (Py.split_ws (create_bucket_command orig)) w1 in
  listed aug w2 = listed aug w
  /\ listed orig (world (create_image_buckets self w)) = true
  /\ listed aug (world (create_image_buckets self w)) = true.
Proof.
  cbn zeta.
  destruct (create_image_buckets_run self w) as (_ & Hworld & _).
  rewrite Hworld. fold orig aug.
  assert (Hsym : String.eqb orig aug = false)
    by (rewrite String.eqb_sym; exact Hdiff).
  assert (Haug2 :
    listed aug
      (if listed orig w
       then snd (s3_buckets_all w)
       else subprocess_run (Py.split_ws (create_bucket_command orig))
              (snd (s3_buckets_all w)))
    = listed aug w).
  { destruct (listed orig w).
    - now apply listed_after_check.
    - rewrite listed_after_creation, Hdiff by assumption.
      now apply listed_after_check. }
  assert (Horig2 :
    listed orig
      (if listed orig w
       then snd (s3_buckets_all w)
       else subprocess_run (Py.split_ws (create_bucket_command orig))
              (snd (s3_buckets_all w)))
    = true).
  { destruct (listed orig w) eqn:Ho.
    - rewrite listed_after_check by assumption. exact Ho.
    - rewrite listed_after_creation, String.eqb_refl by assumption.
      reflexivity. }
  split; [exact Haug2|].
  rewrite Haug2.
  destruct (listed aug w) eqn:Ha.
  - rewrite !listed_after_check by assumption. rewrite Horig2, Haug2.
    auto.
  - rewrite !listed_after_creation by assumption.
    rewrite Hsym, String.eqb_refl, !listed_after_check by assumption.
    rewrite Horig2. auto.
Qed.

Lemma create_image_buckets_twice (w : W) :
  let first := create_image_buckets self w in
  let second := create_image_buckets self (world first) in
  filter storage_request (log first)
  = ((if listed orig w then [] else [creation_request orig])
     ++ (if listed aug w then [] else [creation_request aug]))%list
  /\ filter storage_request (log second) = []
  /\ filter storage_request
       (log ((create_image_buckets self ;; create_image_buckets self) w))
     = ((if listed orig w then [] else [creation_request orig])
        ++ (if listed aug w then [] else [creation_request aug]))%list.
Proof.
  cbn zeta.
  destruct (create_image_buckets_effect w) as (Haug & Horig' & Haug').
  assert (Hfirst :
    filter storage_request (log (create_image_buckets self w))
    = ((if listed orig w then [] else [creation_request orig])
       ++ (if listed aug w then [] else [creation_request aug]))%list).
  { rewrite create_image_buckets_requests. fold orig aug.
    rewrite Haug. reflexivity. }
  assert (Hsecond :
    filter storage_request
      (log (create_image_buckets self
              (world (create_image_buckets self w)))) = []).
  { rewrite create_image_buckets_requests. fold orig aug.
    rewrite Horig'. rewrite listed_after_check by assumption.
    rewrite Haug'. reflexivity. }
  split; [exact Hfirst|]. split; [exact Hsecond|].
  unfold bind at 1.
  destruct (create_image_buckets_run self w) as (Hres & _ & _).
  rewrite Hres. cbn [log]. rewrite filter_app, Hfirst, Hsecond.
  apply app_nil_r.
Qed.

End Twice.

End Provisioning.

(** C3.  Each existence check of [create_image_buckets] is followed by a
    creation request exactly when its answer does not list the bucket,
    and the construction treats the state store, then the two image
    buckets, in that way (the store's creation being followed by
    versioning).  Hence, against a store that keeps its buckets, two calls
    of [create_image_buckets] in sequence issue one creation request for a
    bucket that was absent at the start and none for one that was there;
    the second call issues none at all. *)
Theorem image_buckets_are_created_once
  (W : Type) (Ext : External W) (prefix : string) (verbose : bool) (w : W) :
  let self := new_self prefix verbose in
  let store := kops_state_store_name self in
  let orig := original_images_bucket self in
  let aug := augmented_images_bucket self in
  (exists names1 names2,
      filter external_call (log (create_image_buckets self w))
      = (ensured orig names1 ++ ensured aug names2)%list)
  /\ (let calls := filter storage_call (log (__init__ prefix verbose w)) in
      calls = []
      \/ exists names0 names1 names2,
           calls
           = (ensured_state_store store names0
              ++ ensured orig names1 ++ ensured aug names2)%list)
  /\ (store_keeps (W:=W) [orig; aug] ->
      let first := create_image_buckets self w in
      let second := create_image_buckets self (world first) in
      filter storage_request (log first)
      = ((if listed orig w then [] else [creation_request orig])
         ++ (if listed aug w then [] else [creation_request aug]))%list
      /\ filter storage_request (log second) = []
      /\ filter storage_request
           (log ((create_image_buckets self ;; create_image_buckets self)
                   w))
         = ((if listed orig w then [] else [creation_request orig])
            ++ (if listed aug w then [] else [creation_request aug]))%list).
Proof.
  cbn zeta. split; [|split].
  - destruct (create_image_buckets_run (new_self prefix verbose) w)
      as (_ & _ & Hlog).
    eexists. eexists. exact Hlog.
  - destruct (init_storage_calls prefix verbose w) as (kept & Hrun & Hkept).
    rewrite record_run in Hrun. inversion Hrun. subst kept. exact Hkept.
  - intros Hkeep.
    apply (@create_image_buckets_twice W Ext (new_self prefix verbose)
             (image_buckets_differ prefix verbose) Hkeep w).
Qed.

(** The concrete world keeps its buckets. *)
Lemma sim_store_keeps :
  store_keeps (W:=Sim)
    ["demo-original-images-bucket"; "demo-augmented-images-bucket"].
Proof.
  split.
  - intros w b _. reflexivity.
  - intros w b b' _ Hb'.
    destruct Hb' as [<- | [<- | []]]; reflexivity.
Qed.

Lemma image_buckets_witness :
  filter storage_request
    (log ((create_image_buckets (new_self "demo" false) ;;
           create_image_buckets (new_self "demo" false)) silent))
  = [creation_request "demo-original-images-bucket";
     creation_request "demo-augmented-images-bucket"].
Proof.
  exact (proj2 (proj2 (proj2 (proj2 (image_buckets_are_created_once
                                       Sim_External "demo" false silent))
                         sim_store_keeps))).
Defined.

(** C3 as the specification words it fails.  On an account that may list
    and may not create, where every creation request fails, each of two
    calls in sequence requests both image buckets: four creation requests,
    where the specification counts two. *)
Lemma failed_creation_is_requested_again :
  filter storage_request
    (log ((create_image_buckets (new_self "demo" false) ;;
           create_image_buckets (new_self "demo" false)) read_only_account))
  = [EvRun ["aws"; "s3api"; "create-bucket"; "--bucket";
            "demo-original-images-bucket"; "--region"; "us-east-1"];
     EvRun ["aws"; "s3api"; "create-bucket"; "--bucket";
            "demo-augmented-images-bucket"; "--region"; "us-east-1"];
     EvRun ["aws"; "s3api"; "create-bucket"; "--bucket";
            "demo-original-images-bucket"; "--region"; "us-east-1"];
     EvRun ["aws"; "s3api"; "create-bucket"; "--bucket";
            "demo-augmented-images-bucket"; "--region"; "us-east-1"]]
  /\ ~ provisioning_is_idempotent.
Proof.
  split; [vm_compute; reflexivity|].
  intros H.
  specialize (H ReadOnly ReadOnly_External "demo" false read_only_account).
  vm_compute in H. discriminate H.
Qed.


(** * Further properties *)

(** ** Sequencing *)

Section BindEquations.

Context {W : Type} {Ext : External W}.

Lemma bind_ok {A B} (m : M W A) (f : A -> M W B) (w : W) (a : A) :
  res (m w) = Ok a ->
  bind m f w
  = {| res := res (f a (world (m w)));
       world := world (f a (world (m w)));
       log := (log (m w) ++ log (f a (world (m w))))%list |}.
Proof. intros H. unfold bind. rewrite H. reflexivity. Qed.

Lemma bind_raise {A B} (m : M W A) (f : A -> M W B) (w : W) (e : Exn) :
  res (m w) = Raise e ->
  bind m f w = {| res := Raise e; world := world (m w); log := log (m w) |}.
Proof. intros H. unfold bind. rewrite H. reflexivity. Qed.

Lemma vprint_run (self : Interface) (text : string) (w : W) :
  res (_vprint self text w) = Ok tt
  /\ world (_vprint self text w) = w
  /\ filter external_call (log (_vprint self text w)) = [].
Proof. unfold _vprint. destruct (verbose self); repeat split. Qed.

End BindEquations.

Lemma len_zero (s : string) : (Py.len s =? 0)%Z = Py.is_empty s.
Proof. destruct s; reflexivity. Qed.

Lemma is_empty_eq (s : string) : Py.is_empty s = true <-> s = "".
Proof. destruct s; split; intros H; try reflexivity; discriminate. Qed.

(** ** Installation checks *)

Section Tools.

Context {W : Type} {Ext : External W}.

Lemma package_message_run (self : Interface) (package args : string)
  (w : W) :
  let out := fst (shell_exec (package ++ args) w) in
  let o := _package_message_non_zero self package args w in
  res o = Ok (negb (Py.is_empty (Py.strip (stdout out))))
  /\ world o = snd (shell_exec (package ++ args) w)
  /\ filter external_call (log o) = [EvPopen (package ++ args) out].
Proof.
  cbn zeta. unfold _package_message_non_zero, _vprint.
  destruct (verbose self); cbn; rewrite len_zero; repeat split.
Qed.

End Tools.

(** X1.  A tool that prints nothing but ASCII whitespace counts as
    missing: the construction raises [AssertionError] with the
    installation hint, right after the check of that tool and before any
    call to the object store or the cluster.  (The outputs are taken to be
    ASCII text; on other bytes the decoding may fail first.) *)
Theorem missing_tool_stops_construction
  (W : Type) (Ext : External W) (prefix : string) (verbose : bool) (w : W) :
  let kubectl := fst (shell_exec "kubectl -h" w) in
  let aws := fst (shell_exec "aws help" (snd (shell_exec "kubectl -h" w))) in
  let o := __init__ prefix verbose w in
  (is_ascii (stdout kubectl) = true ->
   Py.strip (stdout kubectl) = "" ->
   res o
   = Raise (AssertionError
              "cannot find kubectl. Install via homebrew with `brew update && brew install kops kubectl`")
   /\ filter external_call (log o) = [EvPopen "kubectl -h" kubectl])
  /\ (is_ascii (stdout kubectl) = true ->
      is_ascii (stdout aws) = true ->
      Py.strip (stdout kubectl) <> "" ->
      Py.strip (stdout aws) = "" ->
      res o
      = Raise (AssertionError
                 "cannot find awscli. Install with `pip install awscli --upgrade --user`")
      /\ filter external_call (log o)
         = [EvPopen "kubectl -h" kubectl; EvPopen "aws help" aws]).
Proof.
  cbn zeta.
  destruct (package_message_run (new_self prefix verbose) "kubectl" " -h" w)
    as (Hres1 & Hworld1 & Hlog1).
  change ("kubectl" ++ " -h") with "kubectl -h" in *.
  split.
  - intros _ Hk. rewrite Hk in Hres1. unfold __init__.
    rewrite (bind_ok _ _ _ Hres1). cbn [negb Py.is_empty res log raise].
    rewrite filter_app, Hlog1. split; reflexivity.
  - intros _ _ Hk Ha.
    assert (Hne : Py.is_empty (Py.strip (stdout (fst (shell_exec "kubectl -h" w))))
                  = false).
    { destruct (Py.is_empty _) eqn:E; [|reflexivity].
      apply is_empty_eq in E. contradiction. }
    rewrite Hne in Hres1. unfold __init__.
    rewrite (bind_ok _ _ _ Hres1). cbn [negb].
    destruct (package_message_run (new_self prefix verbose) "aws" " help"
                (world (_package_message_non_zero (new_self prefix verbose)
                          "kubectl" " -h" w)))
      as (Hres2 & Hworld2 & Hlog2).
    change ("aws" ++ " help") with "aws help" in *.
    rewrite Hworld1 in *. rewrite Ha in Hres2.
    rewrite (bind_ok _ _ _ Hres2). cbn [negb Py.is_empty res log raise].
    rewrite !filter_app, Hlog1, Hlog2. split; reflexivity.
Qed.

Lemma missing_tool_witness :
  res (__init__ "demo" true silent)
  = Raise (AssertionError
             "cannot find kubectl. Install via homebrew with `brew update && brew install kops kubectl`").
Proof.
  exact (proj1 (proj1 (missing_tool_stops_construction Sim_External
                         "demo" true silent) eq_refl eq_refl)).
Defined.

(** ** Substrings *)

Lemma append_assoc_str (a b c : string) : (a ++ b) ++ c = a ++ (b ++ c).
Proof. induction a as [|x a IH]; cbn; [reflexivity | now rewrite IH]. Qed.

Lemma prefix_append (s t : string) : String.prefix s (s ++ t) = true.
Proof.
  induction s as [|c s IH]; cbn.
  - destruct t; reflexivity.
  - destruct (ascii_dec c c) as [_|Hne]; [exact IH | now elim Hne].
Qed.

Lemma contains_prefix (needle hay : string) :
  String.prefix needle hay = true -> Py.contains needle hay = true.
Proof. intros H. destruct hay; cbn [Py.contains]; rewrite H; reflexivity. Qed.

Lemma contains_append (needle a b : string) :
  Py.contains needle (a ++ needle ++ b) = true.
Proof.
  induction a as [|c a IH].
  - change ("" ++ needle ++ b) with (needle ++ b).
    apply contains_prefix. apply prefix_append.
  - cbn [append Py.contains]. rewrite IH. apply orb_true_r.
Qed.

(** ** The validation of the environment, in general *)

Section Environment.

Context {W : Type} {Ext : External W}.

Variable self : Interface.

Let expected_name := cluster_name self.
Let expected_store := "s3://" ++ kops_state_store_name self.

Lemma check_environment_quiet (w : W) :
  let o := _check_environmental_variables self w in
  world o = w /\ Forall (fun e => storage_call e = false) (log o).
Proof.
  cbn zeta. unfold _check_environmental_variables, environ_getitem, _vprint,
    bind.
  destruct (verbose self); cbn;
    destruct (os_environ w "KOPS_CLUSTER_NAME") as [v1|]; cbn;
    try destruct (String.eqb v1 (cluster_name self)); cbn;
    try destruct (os_environ w "KOPS_STATE_STORE") as [v2|]; cbn;
    try destruct (String.eqb v2 _); cbn;
    split; try reflexivity; repeat constructor.
Qed.

Lemma check_environment_res (w : W) :
  res (_check_environmental_variables self w)
  = match os_environ w "KOPS_CLUSTER_NAME" with
    | None => Raise (KeyError "KOPS_CLUSTER_NAME")
    | Some v1 =>
        if negb (String.eqb v1 expected_name)
        then Raise (EnvironmentError (name_hint self))
        else
          match os_environ w "KOPS_STATE_STORE" with
          | None => Raise (KeyError "KOPS_STATE_STORE")
          | Some v2 =>
              if negb (String.eqb v2 expected_store)
              then Raise (EnvironmentError (store_hint self))
              else Ok tt
          end
    end.
Proof.
  unfold _check_environmental_variables, environ_getitem, _vprint, bind,
    name_hint, store_hint, expected_name, expected_store.
  destruct (verbose self); cbn;
    destruct (os_environ w "KOPS_CLUSTER_NAME") as [v1|]; cbn;
    try destruct (String.eqb v1 (cluster_name self)); cbn;
    try destruct (os_environ w "KOPS_STATE_STORE") as [v2|]; cbn;
    try destruct (String.eqb v2 _); cbn;
    try reflexivity;
    rewrite ?append_assoc_str; reflexivity.
Qed.

Lemma name_hint_names_value :
  Py.contains
    ("export KOPS_CLUSTER_NAME=" ++ Py.DQ ++ expected_name ++ Py.DQ)
    (name_hint self) = true.
Proof.
  assert (H : name_hint self
              = "please run this command in Terminal and try again:'"
                ++ ("export KOPS_CLUSTER_NAME=" ++ Py.DQ ++ expected_name
                    ++ Py.DQ)
                ++ "' >> $HOME/.bash_profile").
  { unfold name_hint, expected_name. cbn.
    rewrite !append_assoc_str. reflexivity. }
  rewrite H. apply contains_append.
Qed.

Lemma store_hint_names_value :
  Py.contains
    ("export KOPS_STATE_STORE=" ++ Py.DQ ++ expected_store ++ Py.DQ)
    (store_hint self) = true.
Proof.
  assert (H : store_hint self
              = "please run this command in Terminal and try again:'"
                ++ ("export KOPS_STATE_STORE=" ++ Py.DQ ++ expected_store
                    ++ Py.DQ)
                ++ "' >> $HOME/.bash_profile").
  { unfold store_hint, expected_store. cbn.
    rewrite !append_assoc_str. reflexivity. }
  rewrite H. apply contains_append.
Qed.

End Environment.

(** X2.  The check passes exactly when both variables are set and hold the
    values derived from the names of the interface; it never changes the
    world and never calls the object store. *)
Theorem check_environment_passes_iff
  (W : Type) (Ext : External W) (self : Interface) (w : W) :
  let o := _check_environmental_variables self w in
  (res o = Ok tt
   <-> os_environ w "KOPS_CLUSTER_NAME" = Some (cluster_name self)
       /\ os_environ w "KOPS_STATE_STORE"
          = Some ("s3://" ++ kops_state_store_name self))
  /\ world o = w
  /\ Forall (fun e => storage_call e = false) (log o).
Proof.
  cbn zeta. split; [|apply check_environment_quiet].
  rewrite check_environment_res.
  destruct (os_environ w "KOPS_CLUSTER_NAME") as [v1|].
  - destruct (String.eqb_spec v1 (cluster_name self)) as [->|Hne1]; cbn [negb].
    + destruct (os_environ w "KOPS_STATE_STORE") as [v2|].
      * destruct (String.eqb_spec v2 ("s3://" ++ kops_state_store_name self))
          as [->|Hne2]; cbn [negb].
        -- split; [intros _; split; reflexivity | reflexivity].
        -- split; [discriminate|]. intros [_ H]. inversion H. contradiction.
      * split; [discriminate|]. intros [_ H]. discriminate.
    + split; [discriminate|]. intros [H _]. inversion H. contradiction.
  - split; [discriminate|]. intros [H _]. discriminate.
Qed.

(** X3.  How the check fails.  A variable that is not set at all raises
    [KeyError] naming it; a variable set to another value raises
    [EnvironmentError] whose message holds the export statement with the
    expected value.  The state store is looked at only after the cluster
    name was found right. *)
Theorem check_environment_failures
  (W : Type) (Ext : External W) (self : Interface) (w : W) :
  let o := _check_environmental_variables self w in
  let name := cluster_name self in
  let store := "s3://" ++ kops_state_store_name self in
  (os_environ w "KOPS_CLUSTER_NAME" = None ->
   res o = Raise (KeyError "KOPS_CLUSTER_NAME"))
  /\ (forall value,
         os_environ w "KOPS_CLUSTER_NAME" = Some value -> value <> name ->
         exists msg,
           res o = Raise (EnvironmentError msg)
           /\ Py.contains
                ("export KOPS_CLUSTER_NAME=" ++ Py.DQ ++ name ++ Py.DQ) msg
              = true)
  /\ (os_environ w "KOPS_CLUSTER_NAME" = Some name ->
      os_environ w "KOPS_STATE_STORE" = None ->
      res o = Raise (KeyError "KOPS_STATE_STORE"))
  /\ (forall value,
         os_environ w "KOPS_CLUSTER_NAME" = Some name ->
         os_environ w "KOPS_STATE_STORE" = Some value -> value <> store ->
         exists msg,
           res o = Raise (EnvironmentError msg)
           /\ Py.contains
                ("export KOPS_STATE_STORE=" ++ Py.DQ ++ store ++ Py.DQ) msg
              = true).
Proof.
  cbn zeta. rewrite check_environment_res. repeat split.
  - intros ->. reflexivity.
  - intros value -> Hne. apply String.eqb_neq in Hne. rewrite Hne. cbn [negb].
    exists (name_hint self). split; [reflexivity|].
    apply name_hint_names_value.
  - intros -> ->. rewrite String.eqb_refl. reflexivity.
  - intros value -> -> Hne. apply String.eqb_neq in Hne.
    rewrite String.eqb_refl, Hne. cbn [negb].
    exists (store_hint self). split; [reflexivity|].
    apply store_hint_names_value.
Qed.

Lemma check_environment_passes_witness :
  res (_check_environmental_variables (new_self "demo" false) demo_ready)
  = Ok tt.
Proof.
  apply (proj1 (check_environment_passes_iff Sim_External
                  (new_self "demo" false) demo_ready)).
  split; reflexivity.
Defined.

Lemma check_environment_failures_witness :
  res (_check_environmental_variables (new_self "demo" false) silent)
  = Raise (KeyError "KOPS_CLUSTER_NAME")
  /\ exists msg,
       res (_check_environmental_variables (new_self "demo" false)
              store_misnamed)
       = Raise (EnvironmentError msg)
       /\ Py.contains
            ("export KOPS_STATE_STORE=" ++ Py.DQ
             ++ "s3://demo-kops-state-store" ++ Py.DQ) msg = true.
Proof.
  split.
  - apply (proj1 (check_environment_failures Sim_External
                    (new_self "demo" false) silent)).
    reflexivity.
  - apply (proj2 (proj2 (proj2 (check_environment_failures Sim_External
                                  (new_self "demo" false) store_misnamed)))
             "s3://other-store").
    + reflexivity.
    + reflexivity.
    + discriminate.
Defined.

(** ** More about the bring-up sequence *)

(** Reading a log with the monitors of this part: the events are evaluated
    by [evaluate], conditional creations are read by [on_creation]. *)
Ltac read_step evaluate :=
  eexists; split; [ evaluate; reflexivity | ].

Ltac read_events evaluate on_creation :=
  repeat first
    [ on_creation
    | apply accepts_vprint; [reflexivity |]
    | apply accepts_write; read_step evaluate
    | apply accepts_pass_command; intros ?out; read_step evaluate
    | apply accepts_call; intros ?answer; read_step evaluate
    | apply accepts_act; read_step evaluate
    | apply accepts_environ; intros [?value|]; read_step evaluate
    | apply accepts_ret
    | apply accepts_raise
    | apply accepts_bind
    | match goal with
      | |- accepts _ _ (if negb ?b then _ else _) _ => destruct b eqn:?
      | |- accepts _ _ (if ?b then _ else _) _ => destruct b eqn:?
      end
    | progress cbn beta iota zeta ].

Ltac evaluate_seen :=
  unfold seen_step;
  cbn [environ_is tool_answered String.eqb Ascii.eqb Bool.eqb andb orb negb].

Ltac creation_skipped evaluate :=
  idtac;
  match goal with
  | |- accepts ?step ?s (bind (if negb ?b then _ else ret tt) _) _ =>
      apply accepts_bind;
      apply accepts_weaken with (Q1 := fun r s' => r = Ok tt /\ s' = s);
      [ destruct b; read_events evaluate fail; split; reflexivity
      | intros ? ? [-> ->] ]
  end.

Ltac read_seen :=
  read_events evaluate_seen ltac:(creation_skipped evaluate_seen).

Lemma seen_sound (trigger : Event -> bool) (l : list Event) :
  forall seen,
    run (seen_step trigger) seen l = Some true ->
    seen = true \/ exists e, In e l /\ trigger e = true.
Proof.
  induction l as [|x l IH]; intros seen Hrun; cbn in Hrun.
  - inversion Hrun. now left.
  - unfold seen_step in Hrun at 1.
    destruct (IH _ Hrun) as [Hs | (e & Hin & He)].
    + destruct (trigger x) eqn:Hx.
      * right. exists x. split; [now left | exact Hx].
      * now left.
    + right. exists e. split; [now right | exact He].
Qed.

Section Constructed.

Context {W : Type} {Ext : External W}.

Variables (prefix : string) (verbose : bool).

Lemma init_ok_saw_cluster_name :
  accepts
    (seen_step (environ_is "KOPS_CLUSTER_NAME" (prefix ++ ".k8s.local")))
    false (__init__ (W:=W) prefix verbose)
    (fun r seen => match r with Ok _ => seen = true | Raise _ => True end).
Proof. open_methods. read_seen. all: first [exact I | reflexivity]. Qed.

Lemma init_ok_saw_state_store :
  accepts
    (seen_step
       (environ_is "KOPS_STATE_STORE"
          ("s3://" ++ prefix ++ "-kops-state-store")))
    false (__init__ (W:=W) prefix verbose)
    (fun r seen => match r with Ok _ => seen = true | Raise _ => True end).
Proof. open_methods. read_seen. all: first [exact I | reflexivity]. Qed.

Lemma init_ok_saw_kubectl :
  accepts (seen_step (tool_answered "kubectl -h"))
    false (__init__ (W:=W) prefix verbose)
    (fun r seen => match r with Ok _ => seen = true | Raise _ => True end).
Proof. open_methods. read_seen. all: first [exact I | reflexivity]. Qed.

Lemma init_ok_saw_aws :
  accepts (seen_step (tool_answered "aws help"))
    false (__init__ (W:=W) prefix verbose)
    (fun r seen => match r with Ok _ => seen = true | Raise _ => True end).
Proof. open_methods. read_seen. all: first [exact I | reflexivity]. Qed.

End Constructed.

Lemma tool_answered_inv (command : string) (e : Event) :
  tool_answered command e = true ->
  exists out, e = EvPopen command out /\ Py.strip (stdout out) <> "".
Proof.
  destruct e as [|c out| | | | | | |]; try discriminate. cbn.
  intros H. apply andb_prop in H. destruct H as [Hc Hn].
  apply String.eqb_eq in Hc. subst c. exists out. split; [reflexivity|].
  intros Hempty. rewrite Hempty in Hn. discriminate Hn.
Qed.

(** X4.  What a constructed interface guarantees.  When the construction
    returns normally, both tools had printed something at their check, and
    both environment variables had been looked up and found equal to the
    values derived from the prefix. *)
Theorem constructed_means_checked
  (W : Type) (Ext : External W) (prefix : string) (verbose : bool) (w : W)
  (self : Interface) :
  let l := log (__init__ prefix verbose w) in
  res (__init__ prefix verbose w) = Ok self ->
  (exists out, In (EvPopen "kubectl -h" out) l
               /\ Py.strip (stdout out) <> "")
  /\ (exists out, In (EvPopen "aws help" out) l
                  /\ Py.strip (stdout out) <> "")
  /\ In (EvEnviron "KOPS_CLUSTER_NAME" (Some (cluster_name self))) l
  /\ In (EvEnviron "KOPS_STATE_STORE"
           (Some ("s3://" ++ kops_state_store_name self))) l.
Proof.
  cbn zeta. intros Hres.
  pose proof Hres as Hself. apply init_returns_new_self in Hself.
  subst self.
  repeat split.
  - destruct (init_ok_saw_kubectl prefix verbose w) as (s & Hrun & Hs).
    rewrite Hres in Hs. subst s.
    destruct (@seen_sound _ _ _ Hrun) as [H | (e & Hin & He)]; [discriminate|].
    apply tool_answered_inv in He. destruct He as (out & -> & Hne). eauto.
  - destruct (init_ok_saw_aws prefix verbose w) as (s & Hrun & Hs).
    rewrite Hres in Hs. subst s.
    destruct (@seen_sound _ _ _ Hrun) as [H | (e & Hin & He)]; [discriminate|].
    apply tool_answered_inv in He. destruct He as (out & -> & Hne). eauto.
  - destruct (init_ok_saw_cluster_name prefix verbose w) as (s & Hrun & Hs).
    rewrite Hres in Hs. subst s.
    destruct (@seen_sound _ _ _ Hrun) as [H | (e & Hin & He)]; [discriminate|].
    apply environ_is_eq in He. now subst e.
  - destruct (init_ok_saw_state_store prefix verbose w) as (s & Hrun & Hs).
    rewrite Hres in Hs. subst s.
    destruct (@seen_sound _ _ _ Hrun) as [H | (e & Hin & He)]; [discriminate|].
    apply environ_is_eq in He. now subst e.
Qed.

Lemma constructed_means_checked_witness :
  In (EvEnviron "KOPS_CLUSTER_NAME" (Some "demo.k8s.local"))
    (log (__init__ "demo" false demo_ready)).
Proof.
  assert (Hres : res (__init__ "demo" false demo_ready)
                 = Ok (new_self "demo" false))
    by (vm_compute; reflexivity).
  exact (proj1 (proj2 (proj2 (constructed_means_checked Sim_External
                                "demo" false demo_ready Hres)))).
Defined.

Ltac evaluate_kept keep :=
  unfold record_step;
  repeat match goal with
         | |- context [keep ?e] =>
             let b := eval lazy in (keep e) in
             change (keep e) with b
         end;
  cbn [app].

Ltac read_kept keep :=
  read_events ltac:(evaluate_kept keep)
              ltac:(creation_skipped ltac:(evaluate_kept keep)).

Section ClusterPhase.

Context {W : Type} {Ext : External W}.

Variables (prefix : string) (verbose : bool).

Lemma init_cluster_steps :
  accepts (record_step cluster_step) [] (__init__ (W:=W) prefix verbose)
    (fun r steps => cluster_phase (new_self prefix verbose) r steps).
Proof.
  open_methods. read_kept cluster_step.
  all: first
    [ left; split; [reflexivity | eexists; reflexivity]
    | right; left; eexists; split; [reflexivity|];
      split; [|reflexivity];
      cbn [ready_probe]; rewrite String.eqb_refl; cbn [andb]; assumption
    | right; right; do 5 eexists; split; [reflexivity|];
      split; [|reflexivity];
      cbn [ready_probe]; rewrite String.eqb_refl; cbn [andb]; assumption ].
Qed.

End ClusterPhase.

(** X5.  The steps a construction takes against the cluster, in a run
    whose commands printed ASCII text.  Whatever stops the construction,
    the steps issued so far are an initial part of one fixed course: the
    readiness probe and, only after the probe answered [Ready], the six
    manifests in their order followed by the four base activations in
    theirs.  A construction that returns has gone through the whole
    course, and returns the interface also when the probe did not answer
    [Ready].  No other [kops] command is part of the course: a
    construction never creates, updates or deletes a cluster. *)
Theorem construction_cluster_steps
  (W : Type) (Ext : External W) (prefix : string) (verbose : bool) (w : W) :
  let self := new_self prefix verbose in
  let o := __init__ prefix verbose w in
  let steps := filter cluster_step (log o) in
  ascii_answers (log o) = true ->
  exists out out1 out2 out3 out4,
    is_prefix steps (cluster_steps_in_full self out out1 out2 out3 out4)
    /\ (forall returned,
           res o = Ok returned ->
           returned = self
           /\ steps = cluster_steps_in_full self out out1 out2 out3 out4).
Proof.
  cbn zeta. intros _.
  destruct (init_cluster_steps prefix verbose w) as (steps & Hrun & Hphase).
  rewrite record_run in Hrun. inversion Hrun. subst steps. clear Hrun.
  destruct Hphase as [(Hnone & e & Hres)
                     | [(out & Hprobe & Hready & Hres)
                       | (out & out1 & out2 & out3 & out4
                          & Hcourse & Hready & Hres)]].
  - exists (says ""), (says ""), (says ""), (says ""), (says "").
    rewrite Hnone. split.
    + eexists. reflexivity.
    + intros returned Hok. rewrite Hres in Hok. discriminate Hok.
  - exists out, (says ""), (says ""), (says ""), (says "").
    unfold cluster_steps_in_full. rewrite Hready, Hprobe. split.
    + exists []. reflexivity.
    + intros returned Hok. rewrite Hres in Hok. inversion Hok.
      split; reflexivity.
  - exists out, out1, out2, out3, out4.
    unfold cluster_steps_in_full. rewrite Hready, Hcourse. split.
    + exists []. now rewrite app_nil_r.
    + intros returned Hok. rewrite Hres in Hok. inversion Hok.
      split; reflexivity.
Qed.

Lemma construction_cluster_steps_witness :
  exists out out1 out2 out3 out4,
    filter cluster_step (log (__init__ "demo" false demo_ready))
    = cluster_steps_in_full (new_self "demo" false) out out1 out2 out3 out4.
Proof.
  assert (Hascii :
    ascii_answers (log (__init__ "demo" false demo_ready)) = true)
    by (vm_compute; reflexivity).
  destruct (construction_cluster_steps Sim_External "demo" false demo_ready
              Hascii)
    as (out & out1 & out2 & out3 & out4 & _ & Hfull).
  exists out, out1, out2, out3, out4.
  apply (Hfull (new_self "demo" false)). vm_compute. reflexivity.
Defined.

Section Quiet.

Context {W : Type} {Ext : External W}.

Variable prefix : string.


End Quiet.


(** ** Creating and deleting the cluster *)

Lemma shell_commands_app (l1 l2 : list Event) :
  shell_commands (l1 ++ l2) = (shell_commands l1 ++ shell_commands l2)%list.
Proof.
  induction l1 as [|e l1 IH]; [reflexivity|].
  destruct e; cbn; rewrite ?IH; reflexivity.
Qed.



(** ** Sources of an upload *)

(** X8.  When both a local directory and a remote source are passed to
    [upload_images], the remote source is used and the local directory is
    ignored; and an empty string counts as no source at all, so that
    [upload_images] with empty strings only raises [ValueError] without an
    external call. *)
Theorem upload_images_prefers_remote_source
  (W : Type) (Ext : External W) (self : Interface) (w : W) :
  (forall local_images_directory s3_origin,
      s3_origin <> "" ->
      shell_commands
        (log (upload_images self local_images_directory (Some s3_origin) w))
      = [ "aws s3 cp s3://" ++ s3_origin ++ " s3://"
          ++ original_images_bucket self ++ " --recursive --quiet";
          "kubectl create -f queue_maker.yaml" ])
  /\ (forall local_images_directory s3_origin,
         str_truthy local_images_directory = false ->
         str_truthy s3_origin = false ->
         let o := upload_images self local_images_directory s3_origin w in
         res o
         = Raise (ValueError "at least one image origin must be not None")
         /\ filter external_call (log o) = []
         /\ world o = w)
  /\ str_truthy (Some "") = false.
Proof.
  split; [|split].
  - intros local s Hs. apply truthy_nonempty in Hs.
    unfold upload_images, _activate_queue_maker, _vprint.
    destruct (verbose self);
      cbn [str_truthy format_arg]; rewrite Hs;
      cbn [bind ret stdout_write res world log];
      rewrite ?pass_command_res, ?pass_command_log, ?pass_command_world;
      cbn [bind ret stdout_write res world log app shell_commands];
      reflexivity.
  - intros local s Hl Hs.
    unfold upload_images, _vprint.
    destruct (verbose self); rewrite Hl, Hs; repeat split.
  - reflexivity.
Qed.

Lemma upload_images_prefers_remote_witness :
  shell_commands
    (log (upload_images (new_self "demo" false) (Some "photos")
            (Some "archive") silent))
  = [ "aws s3 cp s3://archive s3://demo-original-images-bucket --recursive --quiet";
      "kubectl create -f queue_maker.yaml" ]
  /\ res (upload_images (new_self "demo" false) (Some "") (Some "") silent)
     = Raise (ValueError "at least one image origin must be not None").
Proof.
  pose proof (upload_images_prefers_remote_source Sim_External
                (new_self "demo" false) silent) as (Hremote & Hnone & _).
  split.
  - apply (Hremote (Some "photos") "archive"). discriminate.
  - apply (Hnone (Some "") (Some "")); reflexivity.
Defined.

(** ** The display loop *)

Section ProgressLoop.

Context {W : Type} {Ext : External W}.

Variable self : Interface.




End ProgressLoop.



(** ** The listing loop against any store *)

Section ListingOutcome.

Context {W : Type} {Ext : External W}.

Lemma listing_loop_outcome (bucket : string) :
  forall (bound : nat) (token : option string) (acc : list ObjectPointer)
         (w : W),
    let o :=
      listing_loop bound {| Bucket := bucket; ContinuationToken := token |}
        acc w in
    exists pages,
      log o = listing_calls bucket token pages
      /\ serves w bucket token pages
      /\ listing_outcome bound acc pages (res o).
Proof.
  induction bound as [|bound IH]; intros token acc w; cbn zeta.
  - exists []. repeat split. left. repeat split. constructor.
  - rewrite listing_loop_turn. cbn zeta.
    set (kwargs := {| Bucket := bucket; ContinuationToken := token |}).
    destruct (Contents (fst (s3_list_objects_v2 kwargs w)))
      as [objects|] eqn:Econ.
    + destruct (NextContinuationToken (fst (s3_list_objects_v2 kwargs w)))
        as [tok|] eqn:Etok.
      * destruct (IH (Some tok) (acc ++ objects)%list
                    (snd (s3_list_objects_v2 kwargs w)))
          as (pages & Hlog & Hserves & Hout).
        cbn [Bucket kwargs]. cbn zeta.
        exists (fst (s3_list_objects_v2 kwargs w) :: pages).
        assert (Hinner : inner_page (fst (s3_list_objects_v2 kwargs w))).
        { unfold inner_page, has_contents, has_token.
          rewrite Econ, Etok. split; reflexivity. }
        cbn [log res listing_calls serves]. rewrite Etok.
        split; [now rewrite Hlog|]. split; [split; [reflexivity|exact Hserves]|].
        destruct Hout as [(Hres & Hlen & Hall)
                         | (first & final & Hpages & Hall & Hlen & Hend)].
        -- left. cbn [length]. repeat split; auto.
        -- right. exists (fst (s3_list_objects_v2 kwargs w) :: first), final.
           subst pages. cbn [length]. repeat split; auto; try lia.
           destruct Hend as [Hnone | (Hc & Ht & Hres)]; [now left|].
           right. repeat split; auto. rewrite Hres.
           unfold all_contents, contents_of at 2. cbn [app map concat].
           rewrite Econ, app_assoc. reflexivity.
      * exists [fst (s3_list_objects_v2 kwargs w)].
        cbn [log res listing_calls serves].
        split; [reflexivity|]. split; [split; [reflexivity | exact I]|].
        right. exists [], (fst (s3_list_objects_v2 kwargs w)).
        split; [reflexivity|]. split; [constructor|].
        split; [cbn; lia|].
        right. unfold has_contents, all_contents, contents_of.
        cbn [app map concat]. rewrite Econ, app_nil_r. auto.
    + exists [fst (s3_list_objects_v2 kwargs w)].
      cbn [log res listing_calls serves].
      split; [reflexivity|]. split; [split; [reflexivity | exact I]|].
      right. exists [], (fst (s3_list_objects_v2 kwargs w)).
      split; [reflexivity|]. split; [constructor|].
      split; [cbn; lia|]. now left.
Qed.

End ListingOutcome.

(** X10.  Against any store, [_download_augmented_images_pointers] issues
    its listing calls for the augmented-images bucket as a chain, the
    first without a token and each later one with the token of the response
    before it, and stops at the first response that lacks the contents or
    lacks the token: with [None] in the first case and with the contents of
    all responses, in order, in the second.  (The third outcome is the
    iteration bound of this description of the loop.) *)
Theorem listing_stops_at_first_missing_key
  (W : Type) (Ext : External W) (self : Interface) (bound : nat) (w : W) :
  let o := _download_augmented_images_pointers bound self w in
  exists pages,
    log o = listing_calls (augmented_images_bucket self) None pages
    /\ serves w (augmented_images_bucket self) None pages
    /\ listing_outcome bound [] pages (res o).
Proof. apply listing_loop_outcome. Qed.

(** X11.  [download_augmented_images] calls the pool's [map] at most once,
    after the last listing call.  When it returns normally, the pool was
    handed the contents of all listed pages, each page's pointers once and
    in order; when a page lacked its contents the pool was handed [None]
    and [TypeError] is raised. *)
Theorem download_hands_listing_to_pool
  (W : Type) (Ext : External W) (self : Interface) (bound : nat) (w : W) :
  let o := download_augmented_images bound self w in
  exists pages,
    serves w (augmented_images_bucket self) None pages
    /\ let calls :=
         listing_calls (augmented_images_bucket self) None pages in
       (res o = Ok tt
        /\ log o = (calls ++ [EvPoolMap (Some (all_contents pages))])%list
        /\ Forall (fun page => has_contents page = true) pages)
       \/ (res o = Raise (TypeError "'NoneType' object is not iterable")
           /\ log o = (calls ++ [EvPoolMap None])%list
           /\ exists page, In page pages /\ Contents page = None)
       \/ (res o = Raise LoopBound /\ log o = calls).
Proof.
  cbn zeta.
  destruct (listing_loop_outcome (augmented_images_bucket self) bound None
              [] w) as (pages & Hlog & Hserves & Hout).
  exists pages. split; [exact Hserves|].
  unfold download_augmented_images, _download_augmented_images_pointers.
  destruct Hout as [(Hres & _ & _)
                   | (first & final & Hpages & Hall & _ & Hend)].
  - right. right. rewrite (bind_raise _ _ _ Hres). cbn [res log].
    split; [reflexivity | exact Hlog].
  - destruct Hend as [(Hnone & Hres) | (Hc & Ht & Hres)].
    + right. left. rewrite (bind_ok _ _ _ Hres). cbn [res log executor_map].
      rewrite Hlog. repeat split.
      exists final. split; [|exact Hnone].
      subst pages. apply in_or_app. right. now left.
    + left. rewrite (bind_ok _ _ _ Hres). cbn [res log executor_map app].
      rewrite Hlog. repeat split.
      subst pages. apply Forall_app. split.
      * eapply Forall_impl; [|exact Hall]. intros page [H _]. exact H.
      * constructor; [exact Hc | constructor].
Qed.

(** ** The argument vector of a creation request *)

Lemma no_whitespace_cons (c : ascii) (s : string) :
  no_whitespace (String c s) <-> Py.isspace c = false /\ no_whitespace s.
Proof.
  unfold no_whitespace. cbn. split.
  - intros H. split; [apply H; now left | intros x Hx; apply H; now right].
  - intros [Hc Hs] x [<- | Hx]; auto.
Qed.

Lemma no_whitespace_snoc (s : string) (c : ascii) :
  no_whitespace s -> Py.isspace c = false -> no_whitespace (Py.snoc s c).
Proof.
  unfold Py.snoc. induction s as [|x s IH]; cbn [append]; intros Hs Hc.
  - apply no_whitespace_cons. split; [exact Hc | intros y []].
  - apply no_whitespace_cons in Hs. destruct Hs as [Hx Hs].
    apply no_whitespace_cons. auto.
Qed.

Lemma snoc_append (word : string) (c : ascii) (s : string) :
  Py.snoc word c ++ s = word ++ String c s.
Proof. unfold Py.snoc. now rewrite append_assoc_str. Qed.

(** A stretch without whitespace is taken into the current word. *)
Lemma split_ws_from_word (name rest : string) :
  no_whitespace name ->
  forall word,
    Py.split_ws_from word (name ++ rest)
    = Py.split_ws_from (word ++ name) rest.
Proof.
  induction name as [|c name IH]; intros Hname word.
  - cbn [append]. replace (word ++ "") with word; [reflexivity|].
    clear. induction word as [|x word IH]; cbn; [reflexivity | now rewrite <- IH].
  - apply no_whitespace_cons in Hname. destruct Hname as [Hc Hname].
    cbn [append Py.split_ws_from]. rewrite Hc, (IH Hname), snoc_append.
    reflexivity.
Qed.

(** Every field of [split()] is non-empty and free of whitespace. *)
Lemma split_ws_from_fields (s : string) :
  forall word,
    no_whitespace word ->
    Forall (fun field => field <> "" /\ no_whitespace field)
      (Py.split_ws_from word s).
Proof.
  induction s as [|c s IH]; intros word Hword; cbn [Py.split_ws_from].
  - destruct word; cbn; constructor; [split; [discriminate | exact Hword]|].
    constructor.
  - destruct (Py.isspace c) eqn:Hc.
    + destruct word; cbn [Py.is_empty].
      * apply IH. intros x [].
      * constructor; [split; [discriminate | exact Hword]|].
        apply IH. intros x [].
    + apply IH. now apply no_whitespace_snoc.
Qed.

(** X12.  The bucket name reaches [aws] as one argument exactly when it is
    non-empty and free of whitespace: then the creation request is the
    command line with the name in fifth place; otherwise no argument of
    the request is the name, because the command line is split at
    whitespace. *)
Theorem creation_request_names_bucket
  (W : Type) (Ext : External W) (bucket_name : string) (w : W) :
  (bucket_name <> "" -> no_whitespace bucket_name ->
   log (_create_bucket bucket_name w)
   = [EvRun ["aws"; "s3api"; "create-bucket"; "--bucket"; bucket_name;
             "--region"; "us-east-1"]])
  /\ (bucket_name = "" \/ ~ no_whitespace bucket_name ->
      exists argv,
        log (_create_bucket bucket_name w) = [EvRun argv]
        /\ ~ In bucket_name argv).
Proof.
  split.
  - intros Hne Hname.
    unfold _create_bucket, subprocess_run_argv, act, create_bucket_command.
    cbn [log].
    assert (Hhead : forall rest,
      Py.split_ws ("aws s3api create-bucket --bucket " ++ rest)
      = "aws" :: "s3api" :: "create-bucket" :: "--bucket"
        :: Py.split_ws_from "" rest) by (reflexivity).
    rewrite Hhead. rewrite (split_ws_from_word _ Hname).
    destruct bucket_name as [|c name]; [contradiction|]. reflexivity.
  - intros Hbad.
    exists (Py.split_ws_from "" (create_bucket_command bucket_name)).
    split; [reflexivity|].
    intros Hin.
    pose proof (split_ws_from_fields (create_bucket_command bucket_name)
                  (word := "") (fun x (H : False) => match H with end))
      as Hfields.
    rewrite Forall_forall in Hfields.
    (destruct (Hfields _ Hin) as [Hne Hname]).
    destruct Hbad as [-> | Hbad]; [now apply Hne | now apply Hbad].
Qed.

Lemma creation_request_names_bucket_witness :
  log (_create_bucket "demo-original-images-bucket" silent)
  = [EvRun ["aws"; "s3api"; "create-bucket"; "--bucket";
            "demo-original-images-bucket"; "--region"; "us-east-1"]]
  /\ exists argv,
       log (_create_bucket "my bucket" silent) = [EvRun argv]
       /\ ~ In "my bucket" argv.
Proof.
  pose proof (creation_request_names_bucket Sim_External
                "demo-original-images-bucket" silent) as [Hgood _].
  pose proof (creation_request_names_bucket Sim_External
                "my bucket" silent) as [_ Hbad].
  split.
  - apply Hgood.
    + discriminate.
    + intros c Hc. cbn in Hc.
      repeat (destruct Hc as [<- | Hc]; [reflexivity|]). contradiction.
  - apply Hbad.
    right. intros H. specialize (H " "%char). cbn in H.
    assert (Hsp : Py.isspace " " = false) by (apply H; auto 10).
    discriminate Hsp.
Defined.

(** ** Paths of downloaded files *)




Lemma all_slashes_append (head tail : string) :
  OsPath.all_slashes (head ++ tail)
  = OsPath.all_slashes head && OsPath.all_slashes tail.
Proof.
  induction head as [|c head IH]; cbn; [reflexivity|].
  now rewrite IH, andb_assoc.
Qed.




(** ** The credentials manifest *)

Example b64encode_sample :
  Base64.b64encode (Base64.encode "AKIA") = "QUtJQQ=="
  /\ Base64.b64encode (Base64.encode "us-east-1") = "dXMtZWFzdC0x"
  /\ Base64.b64encode (Base64.encode (String (ascii_of_nat 233) "")) = "w6k=".
Proof. repeat split; vm_compute; reflexivity. Qed.

Lemma get_all_plain (s : string) :
  PyBytes.all_plain s = true ->
  forall i c, String.get i s = Some c -> PyBytes.plain c = true.
Proof.
  induction s as [|x s IH]; intros Hs i c Hget; [discriminate Hget|].
  cbn [PyBytes.all_plain] in Hs. apply andb_prop in Hs. destruct Hs as [Hx Hs].
  destruct i as [|i]; cbn in Hget.
  - now inversion Hget; subst.
  - exact (IH Hs i c Hget).
Qed.

Lemma digit_plain (n : N) : PyBytes.plain (Base64.digit n) = true.
Proof.
  unfold Base64.digit.
  destruct (String.get (N.to_nat n) Base64.alphabet) as [c|] eqn:E.
  - apply (@get_all_plain Base64.alphabet) with (i := N.to_nat n);
      [vm_compute; reflexivity | exact E].
  - vm_compute. reflexivity.
Qed.

Lemma b64encode_plain_upto (n : nat) :
  forall b, (String.length b < n)%nat ->
            PyBytes.all_plain (Base64.b64encode b) = true.
Proof.
  assert (Hpad : PyBytes.plain Base64.pad = true) by (vm_compute; reflexivity).
  induction n as [|n IH]; intros b Hlen; [lia|].
  destruct b as [|x [|y [|z rest]]];
    cbn [Base64.b64encode PyBytes.all_plain];
    rewrite ?digit_plain, ?Hpad; try reflexivity.
  cbn [andb]. apply IH. cbn [String.length] in Hlen. lia.
Qed.

(** The output of [b64encode] has no byte that [repr] escapes. *)
Lemma b64encode_plain (b : string) :
  PyBytes.all_plain (Base64.b64encode b) = true.
Proof. exact (@b64encode_plain_upto (S (String.length b)) b (Nat.lt_succ_diag_r _)). Qed.

Lemma repr_byte_plain (c : ascii) :
  PyBytes.plain c = true -> PyBytes.repr_byte PyBytes.QUOTE c = String c "".
Proof.
  unfold PyBytes.plain, PyBytes.repr_byte. intros H.
  repeat (apply andb_prop in H; destruct H as [H ?]).
  destruct (Ascii.eqb c PyBytes.QUOTE); [discriminate|].
  destruct (Ascii.eqb c PyBytes.BSLASH); [discriminate|].
  cbn [orb].
  apply N.leb_le in H. 
  match goal with Hlt : (_ <? 127)%N = true |- _ => apply N.ltb_lt in Hlt end.
  repeat match goal with
         | |- context [(?a =? ?b)%N] => destruct (N.eqb_spec a b); [lia|]
         end.
  destruct (N.ltb_spec (N_of_ascii c) 32); [lia|].
  destruct (N.leb_spec 127 (N_of_ascii c)); [lia|].
  reflexivity.
Qed.

Lemma repr_bytes_plain (b : string) :
  PyBytes.all_plain b = true ->
  PyBytes.repr_bytes PyBytes.QUOTE b = b
  /\ PyBytes.has PyBytes.QUOTE b = false.
Proof.
  induction b as [|c b IH]; intros H; [split; reflexivity|].
  cbn [PyBytes.all_plain] in H. apply andb_prop in H. destruct H as [Hc Hb].
  destruct (IH Hb) as [Hrepr Hhas].
  cbn [PyBytes.repr_bytes PyBytes.has].
  rewrite (@repr_byte_plain c Hc), Hrepr, Hhas. split; [reflexivity|].
  unfold PyBytes.plain in Hc.
  destruct (Ascii.eqb c PyBytes.QUOTE); [|reflexivity].
  cbn in Hc. now rewrite !andb_false_r in Hc.
Qed.

(** An f-string shows the encoded value as a [bytes] literal. *)
Lemma repr_b64encode (b : string) :
  PyBytes.repr (Base64.b64encode b) = "b'" ++ Base64.b64encode b ++ "'".
Proof.
  destruct (@repr_bytes_plain _ (b64encode_plain b)) as [Hrepr Hhas].
  unfold PyBytes.repr. rewrite Hhas. cbn [andb]. rewrite Hrepr. reflexivity.
Qed.

Lemma credential_row_shown (label value : string) :
  ("  " ++ label ++ ": ")
  ++ PyBytes.repr (Base64.b64encode (Base64.encode value)) ++ Py.LF
  = CreateSecretYaml.credential_row label value.
Proof.
  rewrite repr_b64encode. unfold CreateSecretYaml.credential_row.
  rewrite !append_assoc_str. reflexivity.
Qed.

Lemma set_nth_length (l : list string) (n : nat) (v : string) :
  length (PyList.set_nth l n v) = length l.
Proof.
  revert n. induction l as [|x l IH]; intros [|n]; cbn; auto.
Qed.

Lemma set_nth_nth_error (l : list string) (n : nat) (v : string) (j : nat) :
  nth_error (PyList.set_nth l n v) j
  = if (j =? n)%nat then option_map (fun _ => v) (nth_error l j)
    else nth_error l j.
Proof.
  revert n j. induction l as [|x l IH]; intros n j.
  - destruct n, j; cbn; try reflexivity; now destruct (j =? n)%nat.
  - destruct n as [|n], j as [|j]; cbn [PyList.set_nth nth_error Nat.eqb];
      try reflexivity.
    apply IH.
Qed.

Lemma setitem_length (l l' : list string) (k : Z) (v : string) :
  PyList.setitem l k v = Some l' -> length l' = length l.
Proof.
  unfold PyList.setitem.
  destruct (_ && _); [|discriminate].
  intros H. inversion H. apply set_nth_length.
Qed.

Lemma setitem_nat (l : list string) (n : nat) (k : Z) (v : string) :
  k = Z.of_nat n ->
  PyList.setitem l k v
  = if (n <? length l)%nat then Some (PyList.set_nth l n v) else None.
Proof.
  intros ->. unfold PyList.setitem.
  destruct (Z.ltb_spec (Z.of_nat n) 0); [lia|].
  destruct (Z.leb_spec 0 (Z.of_nat n)); [|lia].
  rewrite Nat2Z.id. cbn [andb].
  destruct (Z.ltb_spec (Z.of_nat n) (Z.of_nat (length l)));
    destruct (Nat.ltb_spec n (length l)); try lia; reflexivity.
Qed.

(** The run of [add_aws_credentials_to_job] when the three credentials are
    set and the row finder gives an index that is not below zero. *)
Lemma add_credentials_run
  (environ : string -> option string)
  (get_index_of_row_label : list string -> string -> Z)
  (yaml : list string) (access secret default_region : string) (n : nat) :
  environ "AWS_ACCESS_KEY_ID" = Some access ->
  environ "AWS_SECRET_ACCESS_KEY" = Some secret ->
  environ "AWS_DEFAULT_REGION" = Some default_region ->
  get_index_of_row_label yaml "data" = Z.of_nat n ->
  let row1 := CreateSecretYaml.credential_row "AWS_ACCESS_KEY_ID" access in
  let row2 := CreateSecretYaml.credential_row "AWS_DEFAULT_REGION" secret in
  let row3 :=
    CreateSecretYaml.credential_row "AWS_SECRET_ACCESS_KEY" default_region in
  let yaml1 := PyList.set_nth yaml (n + 1) row1 in
  let yaml2 := PyList.set_nth yaml1 (n + 2) row2 in
  let yaml3 := PyList.set_nth yaml2 (n + 3) row3 in
  CreateSecretYaml.add_aws_credentials_to_job environ get_index_of_row_label
    yaml
  = if (n + 1 <? length yaml)%nat
    then if (n + 2 <? length yaml)%nat
         then if (n + 3 <? length yaml)%nat
              then {| CreateSecretYaml.completion :=
                        CreateSecretYaml.Returns yaml3;
                      CreateSecretYaml.rows_after := yaml3;
                      CreateSecretYaml.printed := [] |}
              else {| CreateSecretYaml.completion :=
                        CreateSecretYaml.Raises CreateSecretYaml.IndexError;
                      CreateSecretYaml.rows_after := yaml2;
                      CreateSecretYaml.printed := [] |}
         else {| CreateSecretYaml.completion :=
                   CreateSecretYaml.Raises CreateSecretYaml.IndexError;
                 CreateSecretYaml.rows_after := yaml1;
                 CreateSecretYaml.printed := [] |}
    else {| CreateSecretYaml.completion :=
              CreateSecretYaml.Raises CreateSecretYaml.IndexError;
            CreateSecretYaml.rows_after := yaml;
            CreateSecretYaml.printed := [] |}.
Proof.
  intros Ha Hs Hr Hi row1 row2 row3 yaml1 yaml2 yaml3.
  unfold CreateSecretYaml.add_aws_credentials_to_job,
    CreateSecretYaml.read_credentials, CreateSecretYaml.encoded.
  rewrite Ha, Hs, Hr, Hi.
  cbn [option_map CreateSecretYaml.key CreateSecretYaml.secret_key
         CreateSecretYaml.region].
  pose proof (credential_row_shown "AWS_ACCESS_KEY_ID" access) as E1.
  pose proof (credential_row_shown "AWS_DEFAULT_REGION" secret) as E2.
  pose proof (credential_row_shown "AWS_SECRET_ACCESS_KEY" default_region)
    as E3.
  change ("  " ++ "AWS_ACCESS_KEY_ID" ++ ": ")
    with "  AWS_ACCESS_KEY_ID: " in E1.
  change ("  " ++ "AWS_DEFAULT_REGION" ++ ": ")
    with "  AWS_DEFAULT_REGION: " in E2.
  change ("  " ++ "AWS_SECRET_ACCESS_KEY" ++ ": ")
    with "  AWS_SECRET_ACCESS_KEY: " in E3.
  rewrite E1, E2, E3.
  fold row1 row2 row3.
  rewrite (@setitem_nat yaml (n + 1) (Z.of_nat n + 1) row1) by lia.
  destruct (n + 1 <? length yaml)%nat; [|reflexivity].
  fold yaml1.
  rewrite (@setitem_nat yaml1 (n + 2) (Z.of_nat n + 2) row2) by lia.
  unfold yaml1 at 1. rewrite set_nth_length.
  destruct (n + 2 <? length yaml)%nat; [|reflexivity].
  fold yaml2.
  rewrite (@setitem_nat yaml2 (n + 3) (Z.of_nat n + 3) row3) by lia.
  unfold yaml2 at 1, yaml1 at 1. rewrite !set_nth_length.
  destruct (n + 3 <? length yaml)%nat; reflexivity.
Qed.

(** X14.  With the three credentials set and the row labelled [data] found
    at index [n], three rows below it present, the manifest comes back
    with exactly the rows [n+1], [n+2] and [n+3] replaced, as long as
    before and nothing printed.  Each new row shows the encoded value as a
    bytes literal, [b'...'], and the encoded secret key stands under the
    label [AWS_DEFAULT_REGION], the encoded region under the label
    [AWS_SECRET_ACCESS_KEY]. *)
Theorem credentials_replace_three_rows
  (environ : string -> option string)
  (get_index_of_row_label : list string -> string -> Z)
  (yaml : list string) (access secret default_region : string) (n : nat) :
  environ "AWS_ACCESS_KEY_ID" = Some access ->
  environ "AWS_SECRET_ACCESS_KEY" = Some secret ->
  environ "AWS_DEFAULT_REGION" = Some default_region ->
  get_index_of_row_label yaml "data" = Z.of_nat n ->
  (n + 3 < length yaml)%nat ->
  let run :=
    CreateSecretYaml.add_aws_credentials_to_job environ
      get_index_of_row_label yaml in
  CreateSecretYaml.completion run
  = CreateSecretYaml.Returns (CreateSecretYaml.rows_after run)
  /\ CreateSecretYaml.printed run = []
  /\ length (CreateSecretYaml.rows_after run) = length yaml
  /\ forall j,
       nth_error (CreateSecretYaml.rows_after run) j
       = if (j =? n + 1)%nat
         then Some ("  AWS_ACCESS_KEY_ID: b'"
                    ++ Base64.b64encode (Base64.encode access)
                    ++ "'" ++ Py.LF)
         else if (j =? n + 2)%nat
         then Some ("  AWS_DEFAULT_REGION: b'"
                    ++ Base64.b64encode (Base64.encode secret)
                    ++ "'" ++ Py.LF)
         else if (j =? n + 3)%nat
         then Some ("  AWS_SECRET_ACCESS_KEY: b'"
                    ++ Base64.b64encode (Base64.encode default_region)
                    ++ "'" ++ Py.LF)
         else nth_error yaml j.
Proof.
  intros Ha Hs Hr Hi Hlen run. unfold run.
  rewrite (@add_credentials_run environ get_index_of_row_label yaml
             access secret default_region n Ha Hs Hr Hi).
  destruct (Nat.ltb_spec (n + 1) (length yaml)); [|lia].
  destruct (Nat.ltb_spec (n + 2) (length yaml)); [|lia].
  destruct (Nat.ltb_spec (n + 3) (length yaml)); [|lia].
  cbn [CreateSecretYaml.completion CreateSecretYaml.rows_after
         CreateSecretYaml.printed].
  repeat split.
  - now rewrite !set_nth_length.
  - intros j. rewrite !set_nth_nth_error.
    destruct (Nat.eqb_spec j (n + 3)) as [->|Hj3].
    + destruct (Nat.eqb_spec (n + 3) (n + 2)); [lia|].
      destruct (Nat.eqb_spec (n + 3) (n + 1)); [lia|].
      destruct (nth_error yaml (n + 3)) eqn:E; [reflexivity|].
      apply nth_error_None in E. lia.
    + destruct (Nat.eqb_spec j (n + 2)) as [->|Hj2].
      * destruct (Nat.eqb_spec (n + 2) (n + 1)); [lia|].
        destruct (nth_error yaml (n + 2)) eqn:E; [reflexivity|].
        apply nth_error_None in E. lia.
      * destruct (Nat.eqb_spec j (n + 1)) as [->|Hj1]; [|reflexivity].
        destruct (nth_error yaml (n + 1)) eqn:E; [reflexivity|].
        apply nth_error_None in E. lia.
Qed.

Lemma credentials_replace_witness :
  CreateSecretYaml.rows_after
    (CreateSecretYaml.add_aws_credentials_to_job demo_credentials
       (fun _ _ => 1%Z) demo_template)
  = ["apiVersion: v1" ++ Py.LF; "data:" ++ Py.LF;
     "  AWS_ACCESS_KEY_ID: b'QUtJQQ=='" ++ Py.LF;
     "  AWS_DEFAULT_REGION: b'czNjcjN0'" ++ Py.LF;
     "  AWS_SECRET_ACCESS_KEY: b'dXMtZWFzdC0x'" ++ Py.LF;
     "kind: Secret" ++ Py.LF].
Proof.
  assert (Hlen : (1 + 3 < length demo_template)%nat) by (vm_compute; lia).
  pose proof (@credentials_replace_three_rows demo_credentials
                (fun _ _ => 1%Z) demo_template "AKIA" "s3cr3t" "us-east-1" 1
                eq_refl eq_refl eq_refl eq_refl Hlen) as [_ [_ [Hsame Hrows]]].
  apply nth_error_ext. intros j.
  rewrite (Hrows j).
  do 6 (destruct j as [|j]; [vm_compute; reflexivity|]).
  reflexivity.
Defined.

(** X15.  A credential that is not set does not end the call with the
    [KeyError]: the handler prints the hint, and the call goes on to the
    row finder and then fails on the first local the [try] block has not
    bound, with [UnboundLocalError], before any row is assigned.  This is
    the only way the call raises that error, the caller's list is as it
    was, and [create_secret_yaml] writes no file. *)
Theorem missing_credential_raises_unbound_local
  (environ : string -> option string)
  (get_index_of_row_label : list string -> string -> Z)
  (load_yaml_template : string -> list string) (yaml : list string) :
  let run :=
    CreateSecretYaml.add_aws_credentials_to_job environ
      get_index_of_row_label yaml in
  let missing :=
    environ "AWS_ACCESS_KEY_ID" = None
    \/ environ "AWS_SECRET_ACCESS_KEY" = None
    \/ environ "AWS_DEFAULT_REGION" = None in
  ((exists name,
       CreateSecretYaml.completion run
       = CreateSecretYaml.Raises (CreateSecretYaml.UnboundLocalError name))
   <-> missing)
  /\ (missing ->
      CreateSecretYaml.printed run
      = [CreateSecretYaml.credentials_hint ++ Py.LF]
      /\ CreateSecretYaml.rows_after run = yaml
      /\ CreateSecretYaml.completion run
         = CreateSecretYaml.Raises
             (CreateSecretYaml.UnboundLocalError
                (match environ "AWS_ACCESS_KEY_ID",
                       environ "AWS_SECRET_ACCESS_KEY" with
                 | None, _ => "key"
                 | Some _, None => "secret_key"
                 | Some _, Some _ => "region"
                 end))
      /\ fst (CreateSecretYaml.create_secret_yaml environ
                get_index_of_row_label load_yaml_template) = []).
Proof.
  intros run missing. unfold run, missing.
  unfold CreateSecretYaml.create_secret_yaml,
    CreateSecretYaml.add_aws_credentials_to_job,
    CreateSecretYaml.read_credentials, CreateSecretYaml.encoded.
  destruct (environ "AWS_ACCESS_KEY_ID") as [a|];
    [destruct (environ "AWS_SECRET_ACCESS_KEY") as [s|];
     [destruct (environ "AWS_DEFAULT_REGION") as [r|]|]|];
    cbn [option_map CreateSecretYaml.key CreateSecretYaml.secret_key
           CreateSecretYaml.region CreateSecretYaml.completion
           CreateSecretYaml.rows_after CreateSecretYaml.printed fst].
  - split.
    + split.
      * intros [name H].
        repeat match type of H with
               | context [match ?x with _ => _ end] => destruct x
               end; discriminate H.
      * intros [H | [H | H]]; discriminate H.
    + intros [H | [H | H]]; discriminate H.
  - split; [split; [auto | intros _; eexists; reflexivity]|].
    intros _. repeat split; reflexivity.
  - split; [split; [auto | intros _; eexists; reflexivity]|].
    intros _. repeat split; reflexivity.
  - split; [split; [auto | intros _; eexists; reflexivity]|].
    intros _. repeat split; reflexivity.
Qed.

Lemma missing_credential_witness :
  CreateSecretYaml.completion
    (CreateSecretYaml.add_aws_credentials_to_job
       (fun name => if String.eqb name "AWS_DEFAULT_REGION" then None
                    else demo_credentials name)
       (fun _ _ => 1%Z) demo_template)
  = CreateSecretYaml.Raises (CreateSecretYaml.UnboundLocalError "region").
Proof.
  pose proof (@missing_credential_raises_unbound_local
                (fun name => if String.eqb name "AWS_DEFAULT_REGION" then None
                             else demo_credentials name)
                (fun _ _ => 1%Z) (fun _ => demo_template) demo_template)
    as [_ H].
  destruct H as [_ [_ [H _]]].
  - right. right. reflexivity.
  - exact H.
Defined.

(** X16.  With the three credentials set and the row labelled [data] found
    at index [n], fewer than three rows below it, the call raises
    [IndexError] at the first assignment past the end; the assignments
    before it have been made in the caller's list and stay: the rows
    [n+1] and [n+2], where present, hold their new text, all other rows
    are as they were. *)
Theorem short_manifest_is_left_half_updated
  (environ : string -> option string)
  (get_index_of_row_label : list string -> string -> Z)
  (yaml : list string) (access secret default_region : string) (n : nat) :
  environ "AWS_ACCESS_KEY_ID" = Some access ->
  environ "AWS_SECRET_ACCESS_KEY" = Some secret ->
  environ "AWS_DEFAULT_REGION" = Some default_region ->
  get_index_of_row_label yaml "data" = Z.of_nat n ->
  (length yaml <= n + 3)%nat ->
  let run :=
    CreateSecretYaml.add_aws_credentials_to_job environ
      get_index_of_row_label yaml in
  CreateSecretYaml.completion run
  = CreateSecretYaml.Raises CreateSecretYaml.IndexError
  /\ length (CreateSecretYaml.rows_after run) = length yaml
  /\ forall j,
       nth_error (CreateSecretYaml.rows_after run) j
       = if (j =? n + 1)%nat
         then option_map
                (fun _ =>
                   CreateSecretYaml.credential_row "AWS_ACCESS_KEY_ID" access)
                (nth_error yaml j)
         else if (j =? n + 2)%nat
         then option_map
                (fun _ =>
                   CreateSecretYaml.credential_row "AWS_DEFAULT_REGION" secret)
                (nth_error yaml j)
         else nth_error yaml j.
Proof.
  intros Ha Hs Hr Hi Hlen run. unfold run.
  rewrite (@add_credentials_run environ get_index_of_row_label yaml
             access secret default_region n Ha Hs Hr Hi).
  destruct (Nat.ltb_spec (n + 1) (length yaml)) as [L1|L1];
    [destruct (Nat.ltb_spec (n + 2) (length yaml)) as [L2|L2];
     [destruct (Nat.ltb_spec (n + 3) (length yaml)) as [L3|L3]; [lia|]|]|];
    cbn [CreateSecretYaml.completion CreateSecretYaml.rows_after];
    (split; [reflexivity|]); (split; [now rewrite ?set_nth_length|]);
    intros j; rewrite ?set_nth_nth_error.
  - destruct (Nat.eqb_spec j (n + 2)) as [->|Hj2].
    + destruct (Nat.eqb_spec (n + 2) (n + 1)); [lia|]. reflexivity.
    + reflexivity.
  - destruct (Nat.eqb_spec j (n + 1)) as [->|Hj1]; [reflexivity|].
    destruct (Nat.eqb_spec j (n + 2)) as [->|Hj2]; [|reflexivity].
    assert (E : nth_error yaml (n + 2) = None) by (apply nth_error_None; lia).
    now rewrite E.
  - destruct (Nat.eqb_spec j (n + 1)) as [->|Hj1].
    + assert (E : nth_error yaml (n + 1) = None)
        by (apply nth_error_None; lia).
      now rewrite E.
    + destruct (Nat.eqb_spec j (n + 2)) as [->|Hj2]; [|reflexivity].
      assert (E : nth_error yaml (n + 2) = None)
        by (apply nth_error_None; lia).
      now rewrite E.
Qed.

Lemma short_manifest_witness :
  CreateSecretYaml.completion
    (CreateSecretYaml.add_aws_credentials_to_job demo_credentials
       (fun _ _ => 3%Z) demo_template)
  = CreateSecretYaml.Raises CreateSecretYaml.IndexError
  /\ nth_error
       (CreateSecretYaml.rows_after
          (CreateSecretYaml.add_aws_credentials_to_job demo_credentials
             (fun _ _ => 3%Z) demo_template)) 4
     = Some ("  AWS_ACCESS_KEY_ID: b'QUtJQQ=='" ++ Py.LF).
Proof.
  assert (Hlen : (length demo_template <= 3 + 3)%nat) by (vm_compute; lia).
  pose proof (@short_manifest_is_left_half_updated demo_credentials
                (fun _ _ => 3%Z) demo_template "AKIA" "s3cr3t" "us-east-1" 3
                eq_refl eq_refl eq_refl eq_refl Hlen) as [Hraise [_ Hrows]].
  split; [exact Hraise|].
  rewrite (Hrows 4%nat). vm_compute. reflexivity.
Defined.

(** X17.  [create_secret_yaml] writes at most one file.  It writes none
    exactly when [add_aws_credentials_to_job] raises; and what it writes
    is [secret.yaml], holding the rows the call left in the list loaded
    from the template, as many as the template has, whatever index the
    row finder gave, with the three credentials set. *)
Theorem secret_file_written_only_after_credentials
  (environ : string -> option string)
  (get_index_of_row_label : list string -> string -> Z)
  (load_yaml_template : string -> list string) :
  let template := load_yaml_template "yaml_templates/secret_template.yaml" in
  let run :=
    CreateSecretYaml.add_aws_credentials_to_job environ
      get_index_of_row_label template in
  let files :=
    fst (CreateSecretYaml.create_secret_yaml environ get_index_of_row_label
           load_yaml_template) in
  (files = [] <-> exists e,
        CreateSecretYaml.completion run = CreateSecretYaml.Raises e)
  /\ (files <> [] ->
      files = [{| CreateSecretYaml.written_rows :=
                    CreateSecretYaml.rows_after run;
                  CreateSecretYaml.written_path := "secret.yaml" |}]
      /\ length (CreateSecretYaml.rows_after run) = length template
      /\ environ "AWS_ACCESS_KEY_ID" <> None
      /\ environ "AWS_SECRET_ACCESS_KEY" <> None
      /\ environ "AWS_DEFAULT_REGION" <> None).
Proof.
  intros template run files. unfold files, run.
  unfold CreateSecretYaml.create_secret_yaml. fold template.
  unfold CreateSecretYaml.add_aws_credentials_to_job,
    CreateSecretYaml.read_credentials, CreateSecretYaml.encoded.
  destruct (environ "AWS_ACCESS_KEY_ID") as [a|];
    [destruct (environ "AWS_SECRET_ACCESS_KEY") as [s|];
     [destruct (environ "AWS_DEFAULT_REGION") as [r|]|]|];
    cbn [option_map CreateSecretYaml.key CreateSecretYaml.secret_key
           CreateSecretYaml.region CreateSecretYaml.completion
           CreateSecretYaml.rows_after CreateSecretYaml.printed fst];
    try (split; [split; [intros _; eexists; reflexivity | reflexivity]
                | intros H; now contradiction H]).
  destruct (PyList.setitem template _ _) as [yaml1|] eqn:E1;
    [destruct (PyList.setitem yaml1 _ _) as [yaml2|] eqn:E2;
     [destruct (PyList.setitem yaml2 _ _) as [yaml3|] eqn:E3|]|];
    cbn [CreateSecretYaml.completion CreateSecretYaml.rows_after fst];
    try (split; [split; [intros _; eexists; reflexivity | reflexivity]
                | intros H; now contradiction H]).
  split.
  - split; [discriminate | intros [e H]; discriminate H].
  - intros _. split; [reflexivity|].
    split; [|repeat split; discriminate].
    rewrite (setitem_length _ _ _ E3), (setitem_length _ _ _ E2).
    exact (setitem_length _ _ _ E1).
Qed.

Lemma secret_file_witness :
  fst (CreateSecretYaml.create_secret_yaml demo_credentials
         (fun _ _ => 1%Z) (fun _ => demo_template))
  = [{| CreateSecretYaml.written_rows :=
          CreateSecretYaml.rows_after
            (CreateSecretYaml.add_aws_credentials_to_job demo_credentials
               (fun _ _ => 1%Z) demo_template);
        CreateSecretYaml.written_path := "secret.yaml" |}].
Proof.
  pose proof (@secret_file_written_only_after_credentials demo_credentials
                (fun _ _ => 1%Z) (fun _ => demo_template)) as [_ H].
  apply H. vm_compute. discriminate.
Defined.

(** ** The counter of the poll *)

Lemma no_linebreak_cons (c : ascii) (s : string) :
  no_linebreak (String c s) <-> Py.is_linebreak c = false /\ no_linebreak s.
Proof.
  unfold no_linebreak. cbn. split.
  - intros H. split; [apply H; now left | intros x Hx; apply H; now right].
  - intros [Hc Hs] x [<- | Hx]; auto.
Qed.

Lemma no_colon_cons (c : ascii) (s : string) :
  no_colon (String c s) <-> Ascii.eqb c ":" = false /\ no_colon s.
Proof.
  unfold no_colon. cbn. split.
  - intros H. split; [apply H; now left | intros x Hx; apply H; now right].
  - intros [Hc Hs] x [<- | Hx]; auto.
Qed.

Lemma no_linebreak_append (s t : string) :
  no_linebreak s -> no_linebreak t -> no_linebreak (s ++ t).
Proof.
  induction s as [|c s IH]; intros Hs Ht; [exact Ht|].
  apply no_linebreak_cons in Hs. destruct Hs as [Hc Hs].
  cbn [append]. apply no_linebreak_cons. auto.
Qed.

Lemma append_empty_r (s : string) : s ++ "" = s.
Proof. induction s as [|c s IH]; cbn; [reflexivity | now rewrite IH]. Qed.

Lemma linefeed_is_no_linebreak_free (c : ascii) (cr : bool) :
  Py.is_linebreak c = false -> cr && Ascii.eqb c (ascii_of_nat 10) = false.
Proof.
  intros Hc. destruct cr; [|reflexivity]. cbn [andb].
  destruct (Ascii.eqb_spec c (ascii_of_nat 10)) as [->|]; [|reflexivity].
  discriminate Hc.
Qed.

(** A text without a line boundary is one line, or none when empty. *)
Lemma splitlines_from_line (l : string) :
  no_linebreak l ->
  forall line cr,
    Py.splitlines_from line cr l
    = if Py.is_empty (line ++ l) then [] else [line ++ l].
Proof.
  induction l as [|c l IH]; intros Hl line cr.
  - cbn [Py.splitlines_from]. now rewrite append_empty_r.
  - apply no_linebreak_cons in Hl. destruct Hl as [Hc Hl].
    cbn [Py.splitlines_from].
    rewrite (@linefeed_is_no_linebreak_free c cr Hc), Hc.
    rewrite (IH Hl), snoc_append. reflexivity.
Qed.

(** The last line of a text is what follows its last line feed. *)
Lemma splitlines_from_last (l : string) :
  no_linebreak l -> l <> "" ->
  forall head line cr,
    (cr = true -> line = "") ->
    exists init,
      Py.splitlines_from line cr (head ++ String (ascii_of_nat 10) l)
      = (init ++ [l])%list.
Proof.
  intros Hl Hne.
  assert (Hone : forall cr, Py.splitlines_from "" cr l = [l]).
  { intros cr. rewrite (@splitlines_from_line l Hl). cbn [append].
    destruct l; [contradiction | reflexivity]. }
  induction head as [|c head IH]; intros line cr Hcr.
  - cbn [append Py.splitlines_from].
    destruct cr.
    + rewrite (Hcr eq_refl). cbn [andb].
      rewrite (proj2 (Ascii.eqb_eq _ _) eq_refl).
      exists []. apply Hone.
    + cbn [andb].
      change (Py.is_linebreak (ascii_of_nat 10)) with true. cbn iota.
      exists [line]. now rewrite Hone.
  - cbn [append Py.splitlines_from].
    destruct (cr && Ascii.eqb c (ascii_of_nat 10)).
    + apply IH. discriminate.
    + destruct (Py.is_linebreak c).
      * destruct (IH "" (Ascii.eqb c (ascii_of_nat 13)) (fun _ => eq_refl))
          as [init Hinit].
        exists (line :: init). now rewrite Hinit.
      * apply IH. discriminate.
Qed.

Lemma splitlines_from_pending (s line : string) :
  line <> "" -> Py.splitlines_from line false s <> [].
Proof.
  revert line. induction s as [|c s IH]; intros line Hline.
  - cbn. destruct line; [contradiction | discriminate].
  - cbn [Py.splitlines_from andb].
    destruct (Py.is_linebreak c); [discriminate|].
    apply IH. unfold Py.snoc. destruct line; discriminate.
Qed.

(** Only the empty text has no lines. *)
Lemma splitlines_empty (s : string) : Py.splitlines s = [] -> s = "".
Proof.
  destruct s as [|c s]; [reflexivity|].
  unfold Py.splitlines. cbn [Py.splitlines_from andb].
  destruct (Py.is_linebreak c); [discriminate|].
  intros H. now apply splitlines_from_pending in H.
Qed.

(** The first field of a line is what stands before its first colon. *)
Lemma split_from_first (field rest : string) :
  no_colon field ->
  forall word,
    hd "" (Py.split_from ":" word (field ++ String ":" rest))
    = word ++ field.
Proof.
  induction field as [|c field IH]; intros Hfield word.
  - cbn. now rewrite append_empty_r.
  - apply no_colon_cons in Hfield. destruct Hfield as [Hc Hfield].
    cbn [append Py.split_from]. rewrite Hc, (IH Hfield), snoc_append.
    reflexivity.
Qed.

(** X18.  What [_get_progress] reads from a poll that printed ASCII
    text.  It returns [None] exactly when the poll has logged nothing but
    whitespace.  Otherwise only the last line counts, and of it only what
    stands before the first colon: that field read as an [int] is the
    result, and a field that is no [int] raises [ValueError].  (The field
    is taken to have at most 4300 characters, the length up to which
    every interpreter converts.) *)
Theorem progress_counter_comes_from_last_line
  (W : Type) (Ext : External W) (self : Interface) (w : W) :
  is_ascii (stdout (fst (shell_exec "kubectl logs poll" w))) = true ->
  (res (_get_progress self w) = Ok None <-> poll_text w = "")
  /\ (forall before field rest,
         poll_text w = before ++ field ++ ":" ++ rest ->
         before = "" \/ (exists head, before = head ++ Py.LF) ->
         no_linebreak field -> no_colon field -> no_linebreak rest ->
         (String.length field <= 4300)%nat ->
         match Py.int field with
         | Some progress => res (_get_progress self w) = Ok (Some progress)
         | None => exists msg,
             res (_get_progress self w) = Raise (ValueError msg)
         end).
Proof.
  intros _.
  assert (Hres : res (_get_progress self w)
                 = match Py.splitlines (poll_text w) with
                   | [] => Ok None
                   | _ :: _ =>
                       match Py.int
                               (hd "" (Py.split ":"
                                         (last (Py.splitlines (poll_text w))
                                            "")))
                       with
                       | Some progress => Ok (Some progress)
                       | None =>
                           Raise
                             (ValueError
                                ("invalid literal for int() with base 10: "
                                 ++ hd "" (Py.split ":"
                                             (last (Py.splitlines
                                                      (poll_text w)) "")))) 
                       end
                   end).
  { unfold _get_progress.
    rewrite (bind_ok _ _ _ (pass_command_res "kubectl logs poll" w)).
    cbn [res]. fold (poll_text w).
    destruct (Py.splitlines (poll_text w)) as [|x xs]; [reflexivity|].
    cbn [length Nat.ltb Nat.leb].
    destruct (Py.int _); reflexivity. }
  split.
  - rewrite Hres. split.
    + intros H. apply splitlines_empty.
      destruct (Py.splitlines (poll_text w)); [reflexivity|].
      destruct (Py.int _); discriminate H.
    + intros ->. reflexivity.
  - intros before field rest Htext Hbefore Hfield Hcolon Hrest _.
    assert (Hline : no_linebreak (field ++ ":" ++ rest)).
    { apply no_linebreak_append; [exact Hfield|].
      cbn [append]. apply no_linebreak_cons. split; [reflexivity | exact Hrest]. }
    assert (Hne : field ++ ":" ++ rest <> "").
    { destruct field; discriminate. }
    assert (Hlast : exists init,
               Py.splitlines (poll_text w)
               = (init ++ [(field ++ ":" ++ rest)%string])%list).
    { rewrite Htext. destruct Hbefore as [-> | [head ->]].
      - exists []. cbn [append app]. unfold Py.splitlines.
        rewrite (@splitlines_from_line _ Hline). cbn [append].
        destruct (field ++ String ":" rest) eqn:E; [|reflexivity].
        destruct field; discriminate E.
      - rewrite append_assoc_str. unfold Py.LF. cbn [append].
        unfold Py.splitlines.
        apply (@splitlines_from_last _ Hline Hne). discriminate. }
    destruct Hlast as [init Hlast].
    rewrite Hres, Hlast, last_last.
    destruct (init ++ [(field ++ ":" ++ rest)%string])%list eqn:E;
      [destruct init; discriminate E|].
    unfold Py.split. cbn [append].
    rewrite (@split_from_first field rest Hcolon). cbn [append].
    destruct (Py.int field); [reflexivity | eexists; reflexivity].
Qed.

Lemma progress_counter_witness :
  res (_get_progress (new_self "demo" false) poll_at_42) = Ok (Some 42%Z)
  /\ (res (_get_progress (new_self "demo" false) silent) = Ok None).
Proof.
  pose proof (progress_counter_comes_from_last_line Sim_External
                (new_self "demo" false) poll_at_42 eq_refl) as [_ Hlast].
  pose proof (progress_counter_comes_from_last_line Sim_External
                (new_self "demo" false) silent eq_refl) as [Hnone _].
  split.
  - assert (Hline : forall s, s = "42" \/ s = "..." -> no_linebreak s).
    { intros s [-> | ->] c Hc; cbn in Hc;
        repeat (destruct Hc as [<- | Hc]; [reflexivity|]); contradiction. }
    apply (Hlast ("43:..." ++ Py.LF) "42" "...").
    + vm_compute. reflexivity.
    + right. exists "43:...". reflexivity.
    + apply Hline. now left.
    + intros c Hc. cbn in Hc.
      repeat (destruct Hc as [<- | Hc]; [reflexivity|]). contradiction.
    + apply Hline. now right.
    + cbn. lia.
  - apply Hnone. vm_compute. reflexivity.
Defined.

(** ** The requests that provision the state store *)



